(** * The wire session layer of trezor-core, and the PIN change workflow

    A shallow embedding of [src/trezor/wire/__init__.py] and of
    [src/apps/management/change_pin.py].

    The Python code is cooperative and effectful: coroutines suspend on the
    interface, raise exceptions through several layers of [try] blocks and
    the session handler loops for ever.  Coroutines are embedded as
    interaction trees over the calls they make to their collaborators
    (codec, protobuf, loop, config, ui); an exception is a result of the
    tree, so that [try]/[except]/[finally] are ordinary binds; [while]
    loops are [ITree.iter].  What a coroutine does against one behaviour of
    its environment is a finite run: the list of the calls it made with the
    answers it got, and its result.

    The model is that of a build without diagnostics ([__debug__] false),
    where the [log] calls are compiled away.  [setup], which only hands
    [session_handler] to the scheduler, is left out. *)

From Stdlib Require Import ZArith String List Bool Lia.
From stdpp Require Import base gmap.
From ITree Require Import ITree.

Local Open Scope string_scope.
Local Open Scope list_scope.
Local Open Scope Z_scope.

Set Implicit Arguments.
Unset Strict Implicit.

(* ===================================================================== *)
(** * Data model *)
(* ===================================================================== *)

(** [trezorio.WireInterface], identified by its interface number. *)
Definition WireInterface := Z.

(** Modelled from the spec: [codec_v1.Reader], a handle bound to one
    incoming frame: the interface, and the type tag and the number of payload
    bytes still to be read, as [aopen] parsed them from the header.  A fresh
    reader has no header yet; the code reads [type] and [size] only after
    [aopen], so their initial value is never observed. *)
Record Reader := mkReader {
  reader_iface : WireInterface;
  reader_type : Z;
  reader_size : Z
}.

(** Modelled from the spec: [codec_v1.Writer], bound to one outgoing frame;
    [setheader] stores the type tag and the payload size. *)
Record Writer := mkWriter {
  writer_iface : WireInterface;
  writer_type : Z;
  writer_size : Z
}.

Definition setheader (w : Writer) (mtype size : Z) : Writer :=
  {| writer_iface := writer_iface w; writer_type := mtype; writer_size := size |}.

(** [trezor.messages.FailureType]: the codes the two files name, and any
    other code. *)
Module FailureType.
Inductive t :=
| UnexpectedMessage
| ActionCancelled
| PinInvalid
| FirmwareError
| Other (code : Z).
End FailureType.

Module ButtonRequestType.
Inductive t :=
| Other
| Code (code : Z).
End ButtonRequestType.

(** [trezor.messages.ChangePin]: the request of the PIN workflow. *)
Record ChangePin := mkChangePin {
  remove : bool
}.

(** Protobuf messages: the classes the two files construct or receive, and
    any other message class, known by its wire type. *)
Inductive Message :=
| Failure (code : FailureType.t) (message : string)
| Success (message : string)
| ButtonRequest (code : ButtonRequestType.t)
| ButtonAck
| ChangePinMessage (msg : ChangePin)
| OtherMessage (wire_type : Z) (payload : string).

(** A generated message class ([protobuf.MessageType] subclass): its name and
    its [MESSAGE_WIRE_TYPE] class attribute. *)
Record MsgClass := mkMsgClass {
  class_name : string;
  MESSAGE_WIRE_TYPE : Z
}.

(** A keychain handle of [apps.common.seed]. *)
Definition Keychain := Z.

(** The Python values that flow through the untyped positions of the code
    (results of handlers and of [wait], bound arguments). *)
Inductive pyval :=
| VNone
| VInt (n : Z)
| VStr (s : string)
| VMsg (m : Message)
| VKeychain (k : Keychain).

(** Python truthiness, as [if res:] and [if newpin:] test it. *)
Definition truthy (v : pyval) : bool :=
  match v with
  | VNone => false
  | VInt n => negb (Z.eqb n 0)
  | VStr s => negb (String.eqb s "")
  | VMsg _ => true
  | VKeychain _ => true
  end.

#[global] Instance FailureType_eq_dec : EqDecision FailureType.t :=
  ltac:(solve_decision).
#[global] Instance ButtonRequestType_eq_dec : EqDecision ButtonRequestType.t :=
  ltac:(solve_decision).
#[global] Instance ChangePin_eq_dec : EqDecision ChangePin :=
  ltac:(solve_decision).
#[global] Instance Message_eq_dec : EqDecision Message :=
  ltac:(solve_decision).
#[global] Instance pyval_eq_dec : EqDecision pyval :=
  ltac:(solve_decision).

(** Python [==] on these values. *)
Definition py_eq (a b : pyval) : bool := bool_decide (a = b).

(** The exceptions, by the classes the [except] clauses tell apart. *)
Inductive exn :=
| UnexpectedMessageError (reader : Reader)
| Error (code : FailureType.t) (message : string)
    (* trezor.wire.errors.Error and its subclasses *)
| PyException (name : string)
    (* any other instance of Exception: KeyError, PinCancelled, ... *)
| PyBaseException (name : string).
    (* BaseException outside Exception: GeneratorExit, KeyboardInterrupt, ... *)

(** [wire.PinInvalid] and [wire.ActionCancelled] are the subclasses of
    [Error] that fix the code. *)
Definition PinInvalid (message : string) : exn := Error FailureType.PinInvalid message.
Definition ActionCancelled (message : string) : exn :=
  Error FailureType.ActionCancelled message.
Definition KeyError : exn := PyException "KeyError".
Definition PinCancelled : exn := PyException "PinCancelled".

(** What the spec calls a fault: a domain failure or any other instance of
    [Exception] that is not the re-dispatch condition. *)
Definition is_fault (e : exn) : bool :=
  match e with
  | Error _ _ | PyException _ => true
  | UnexpectedMessageError _ | PyBaseException _ => false
  end.

(** The result of running a piece of Python: a value or a raised exception. *)
Inductive result (A : Type) :=
| Normal (a : A)
| Raised (e : exn).
Arguments Normal {A} a.
Arguments Raised {A} e.

Record Context := mkContext {
  iface : WireInterface;
  sid : Z
}.

(** [trezor.ui.text.Text]: a header and the pieces of text added to it, each
    in the font of the method that added it. *)
Inductive Font :=
| NORMAL
| BOLD.

Record Text := mkText {
  text_header : string;
  text_content : list (Font * string)
}.
Definition normal (t : Text) (content : list string) : Text :=
  {| text_header := text_header t;
     text_content := text_content t ++ List.map (pair NORMAL) content |}.
Definition bold (t : Text) (content : list string) : Text :=
  {| text_header := text_header t;
     text_content := text_content t ++ List.map (pair BOLD) content |}.

(* ===================================================================== *)
(** * The calls to the collaborators *)
(* ===================================================================== *)

(** One constructor per call that leaves the two files.  A call that can
    fail answers a [result].  The housekeeping of the session loop
    ([utils.unimport_begin], [utils.unimport_end], [workflow.onstart],
    [workflow.onclose]), the release of a keychain, the scheduler and the
    credential store are taken not to raise. *)
Variant wireE : Type -> Type :=
(* codec_v1.Reader *)
| AOpen (r : Reader) : wireE (result (Z * Z))
    (* waits for a header; answers its type tag and payload length *)
| AReadInto (r : Reader) (len : Z) : wireE (result Z)
    (* reads into a buffer of [len] bytes; answers the number read *)
(* codec_v1.Writer *)
| AClose (w : Writer) : wireE (result unit)
(* protobuf, trezor.messages *)
| GetType (wire_type : Z) : wireE (result MsgClass)
| LoadMessage (r : Reader) (pbtype : MsgClass) : wireE (result Message)
| DumpMessage (w : Writer) (msg : Message) : wireE (result unit)
(* trezor.utils, trezor.workflow *)
| UnimportBegin : wireE Z
| UnimportEnd (m : Z) : wireE unit
| OnStart : wireE unit
| OnClose : wireE unit
(* apps.common.seed *)
| GetKeychain (ctx : Context) (namespace : list pyval) : wireE (result Keychain)
| KeychainDel (k : Keychain) : wireE unit
(* trezor.loop *)
| Spawn (children : nat) : wireE nat
    (* races the children; answers the index of the one that finishes first *)
| Sleep (delay_us : Z) : wireE unit
(* trezor.config *)
| HasPin : wireE bool
| CheckPin (pin : Z) : wireE bool
| ConfigChangePin (pin newpin : Z) : wireE bool
(* apps.common.confirm, apps.common.request_pin, ui *)
| RequireConfirm (ctx : Context) (text : Text) : wireE (result unit)
| RequestPin (args : list string) : wireE (result string)
| Render (text : Text) : wireE unit.

(** A call together with the answer the environment gave. *)
Inductive event :=
| Ev : forall X : Type, wireE X -> X -> event.
Arguments Ev {X} e x.
Definition trace := list event.

(* ===================================================================== *)
(** * Coroutines *)
(* ===================================================================== *)

Module Co.

(** A coroutine computing an [A]: a tree of calls that ends in a value or
    in a raised exception. *)
Definition t (A : Type) := itree wireE (result A).

Definition ret {A} (a : A) : t A := Ret (Normal a).
Definition raise {A} (e : exn) : t A := Ret (Raised e).

Definition bind {A B} (m : t A) (k : A -> t B) : t B :=
  ITree.bind m (fun x => match x with
                         | Normal a => k a
                         | Raised e => Ret (Raised e)
                         end).

(** A call that cannot fail, and one that can. *)
Definition call {X} (e : wireE X) : t X :=
  ITree.bind (ITree.trigger e) (fun x => Ret (Normal x)).
Definition call_r {X} (e : wireE (result X)) : t X := ITree.trigger e.

(** [try: m except exc: h exc] *)
Definition try_except {A} (m : t A) (h : exn -> t A) : t A :=
  ITree.bind m (fun x => match x with
                         | Normal a => Ret (Normal a)
                         | Raised e => h e
                         end).

(** [try: m finally: f]: [f] runs on every exit path of [m]; the result of
    [m] stands unless [f] itself raises. *)
Definition try_finally {A} (m : t A) (f : t unit) : t A :=
  ITree.bind m (fun x => bind f (fun _ => Ret x)).

(** [while True:] over the loop variables [i]; the body answers [inl] to go
    round again and [inr] to leave the loop. *)
Definition while {I A} (body : I -> t (I + A)) (i : I) : t A :=
  ITree.iter (fun i => ITree.bind (body i)
                (fun x => match x with
                          | Normal (inl i') => Ret (inl i')
                          | Normal (inr a) => Ret (inr (Normal a))
                          | Raised e => Ret (inr (Raised e))
                          end)) i.

End Co.

Declare Scope co_scope.
Delimit Scope co_scope with co.
Notation "x <- c1 ;; c2" := (Co.bind c1 (fun x => c2))
  (at level 100, c1 at next level, right associativity) : co_scope.
Notation "c1 ;; c2" := (Co.bind c1 (fun _ => c2))
  (at level 100, right associativity) : co_scope.
Local Open Scope co_scope.

(* ===================================================================== *)
(** * trezor/wire/__init__.py *)
(* ===================================================================== *)

(** A workflow as the registry holds it, called with the context, the open
    reader and the bound arguments; and a handler as the adapters wrap it,
    called with the context, the decoded request and the bound arguments.
    Both are coroutine functions ([async def], as every handler of the two
    files is): the call gives the coroutine and does nothing else, and what
    the handler does and raises happens when the coroutine is awaited.  A
    callable whose call itself raises is outside the model. *)
Definition Workflow := Context -> Reader -> list pyval -> Co.t pyval.
Definition Handler := Context -> Message -> list pyval -> Co.t pyval.

(** [workflow_handlers]: type tag to handler and bound arguments. *)
Abbreviation registry := (gmap Z (Workflow * list pyval)).

(** The first argument of [register]: an integer type tag or a message
    class. *)
Inductive mtype_arg :=
| MInt (n : Z)
| MClass (c : MsgClass).

(** [register], on the global table passed explicitly: the result (nothing,
    or the raised [KeyError]) and the table afterwards. *)
Definition register (mtype : mtype_arg) (handler : Workflow) (args : list pyval)
    (workflow_handlers : registry) : result unit * registry :=
  let mtype := match mtype with
               | MClass c => MESSAGE_WIRE_TYPE c
               | MInt n => n
               end in
  match workflow_handlers !! mtype with
  | Some _ => (Raised KeyError, workflow_handlers)
  | None => (Normal tt, <[mtype := (handler, args)]> workflow_handlers)
  end.

(** Modelled from the spec: [loop.spawn], a race between the children that
    gives the result of whichever finishes first; the others are closed
    without a result.  Which child wins is the environment's answer. *)
Definition spawn (children : list (Co.t pyval)) : Co.t pyval :=
  i <- Co.call (Spawn (length children));;
  match nth_error children i with
  | Some child => child
  | None => ITree.spin
  end.

(** Modelled from the spec: [Reader.aopen] waits for a header and binds the
    reader to its type tag and payload length; [Reader.areadinto] reads the
    next chunk and lowers the remaining byte count by the number of bytes
    read. *)
Definition aopen (reader : Reader) : Co.t Reader :=
  h <- Co.call_r (AOpen reader);;
  Co.ret {| reader_iface := reader_iface reader;
            reader_type := fst h; reader_size := snd h |}.

Definition areadinto (reader : Reader) (len : Z) : Co.t Reader :=
  n <- Co.call_r (AReadInto reader len);;
  Co.ret {| reader_iface := reader_iface reader;
            reader_type := reader_type reader;
            reader_size := reader_size reader - n |}.

Section Wire.

(** Missing from the sources: the wire type of a message instance
    ([msg.MESSAGE_WIRE_TYPE]) and the size protobuf computes for it
    ([protobuf.count_message(msg, msg.get_fields())]). *)
Variable wire_type_of : Message -> Z.
Variable count_message : Message -> Z.

Definition getreader (ctx : Context) : Reader :=
  {| reader_iface := iface ctx; reader_type := 0; reader_size := 0 |}.

Definition getwriter (ctx : Context) : Writer :=
  {| writer_iface := iface ctx; writer_type := 0; writer_size := 0 |}.

(** [Context.read] *)
Definition read (ctx : Context) (types : list Z) : Co.t Message :=
  let reader := getreader ctx in
  reader <- aopen reader;;
  if negb (bool_decide (reader_type reader ∈ types)) then
    Co.raise (UnexpectedMessageError reader)
  else
    pbtype <- Co.call_r (GetType (reader_type reader));;
    Co.call_r (LoadMessage reader pbtype).

(** [Context.write] *)
Definition write (ctx : Context) (msg : Message) : Co.t unit :=
  let writer := getwriter ctx in
  let size := count_message msg in
  let writer := setheader writer (wire_type_of msg) size in
  Co.call_r (DumpMessage writer msg);;
  Co.call_r (AClose writer).

(** [ctx.write(res)] on an arbitrary value: anything but a message has no
    [get_fields]. *)
Definition write_value (ctx : Context) (res : pyval) : Co.t unit :=
  match res with
  | VMsg msg => write ctx msg
  | _ => Co.raise (PyException "AttributeError")
  end.

(** [Context.call] *)
Definition call (ctx : Context) (msg : Message) (types : list Z) : Co.t Message :=
  write ctx msg;;
  read ctx types.

(** [Context.wait] *)
Definition wait (ctx : Context) (tasks : list (Co.t pyval)) : Co.t pyval :=
  spawn ((m <- read ctx [];; Co.ret (VMsg m)) :: tasks).

(** [unexpected_msg] *)
Definition unexpected_msg (ctx : Context) (reader : Reader) : Co.t pyval :=
  Co.while (fun reader : Reader =>
              if 0 <? reader_size reader then
                reader <- areadinto reader (reader_size reader);;
                Co.ret (inl reader)
              else Co.ret (inr tt)) reader;;
  write ctx (Failure FailureType.UnexpectedMessage "Unexpected message");;
  Co.ret VNone.

(** The lookup at the head of the session loop: the registered workflow
    and its arguments, or [unexpected_msg] with none. *)
Definition find_handler (workflow_handlers : registry) (reader : Reader)
  : Workflow * list pyval :=
  match workflow_handlers !! reader_type reader with
  | Some entry => entry
  | None => (fun ctx reader _ => unexpected_msg ctx reader, [])
  end.

(** One turn of the [while True] of [session_handler]: from the reader
    carried over (or none) to the reader carried into the next turn.  An
    exception that no clause catches leaves the turn and the loop. *)
Definition session_iteration (workflow_handlers : registry) (ctx : Context)
    (reader : option Reader) : Co.t (option Reader) :=
  Co.try_except
    (reader <- match reader with
               | None => aopen (getreader ctx)
               | Some reader => Co.ret reader
               end;;
     let '(handler, args) := find_handler workflow_handlers reader in
     m <- Co.call UnimportBegin;;
     let w := handler ctx reader args in
     Co.try_finally
       (Co.call OnStart;; w)
       (Co.call OnClose;; Co.call (UnimportEnd m));;
     (* read new message in next iteration *)
     Co.ret None)
    (fun exc =>
       match exc with
       | UnexpectedMessageError reader => Co.ret (Some reader)
       | Error _ _ => Co.ret None
       | PyException _ => Co.ret None
       | PyBaseException _ => Co.raise exc
       end).

(** The [while True] of [session_handler], from any value of its variable
    [reader]. *)
Definition session_loop (workflow_handlers : registry) (ctx : Context)
    (reader : option Reader) : Co.t Empty_set :=
  Co.while (fun reader : option Reader =>
              reader <- session_iteration workflow_handlers ctx reader;;
              Co.ret (inl reader)) reader.

(** [session_handler]: it has no [return] and no [break]; it can only end
    by an exception that escapes a turn. *)
Definition session_handler (workflow_handlers : registry)
    (iface : WireInterface) (sid : Z) : Co.t Empty_set :=
  let reader := None in
  let ctx := mkContext iface sid in
  session_loop workflow_handlers ctx reader.

(** [protobuf_workflow] *)
Definition protobuf_workflow (ctx : Context) (reader : Reader)
    (handler : Handler) (args : list pyval) : Co.t pyval :=
  pbtype <- Co.call_r (GetType (reader_type reader));;
  req <- Co.call_r (LoadMessage reader pbtype);;
  res <- Co.try_except (handler ctx req args)
           (fun exc =>
              match exc with
              | UnexpectedMessageError _ => Co.raise exc
              | Error code message =>
                  write ctx (Failure code message);;
                  Co.raise exc
              | PyException _ =>
                  write ctx (Failure FailureType.FirmwareError "Firmware error");;
                  Co.raise exc
              | PyBaseException _ => Co.raise exc
              end);;
  if truthy res then
    write_value ctx res;;
    Co.ret VNone
  else Co.ret VNone.

(** [keychain_workflow] *)
Definition keychain_workflow (ctx : Context) (req : Message)
    (namespace : list pyval) (handler : Handler) (args : list pyval)
  : Co.t pyval :=
  keychain <- Co.call_r (GetKeychain ctx namespace);;
  let args := args ++ [VKeychain keychain] in
  Co.try_finally (handler ctx req args) (Co.call (KeychainDel keychain)).

End Wire.

(* ===================================================================== *)
(** * apps/management/change_pin.py *)
(* ===================================================================== *)

Section ChangePinWorkflow.

Variable wire_type_of : Message -> Z.
Variable count_message : Message -> Z.

(** Missing from the sources: the tag [MessageType.ButtonAck], and
    [trezor.pin.pin_to_int], which may raise on a value it cannot
    convert. *)
Variable MessageType_ButtonAck : Z.
Variable pin_to_int : pyval -> result Z.

Let write := write wire_type_of count_message.
Let call := call wire_type_of count_message.

(** [pin_mismatch] *)
Definition pin_mismatch : Co.t unit :=
  let text := mkText "PIN mismatch" [] in
  let text := normal text ["Entered PINs do not"; "match each other."] in
  let text := normal text [""] in
  let text := normal text ["Please, try again..."] in
  Co.call (Render text);;
  Co.call (Sleep (3 * 1000 * 1000)).

(** [request_pin_ack] *)
Definition request_pin_ack (ctx : Context) (args : list string) : Co.t pyval :=
  Co.try_except
    (call ctx (ButtonRequest ButtonRequestType.Other) [MessageType_ButtonAck];;
     wait ctx [pin <- Co.call_r (RequestPin args);; Co.ret (VStr pin)])
    (fun exc =>
       match exc with
       | PyException name =>
           if String.eqb name "PinCancelled" then
             Co.raise (ActionCancelled "Cancelled")
           else Co.raise exc
       | _ => Co.raise exc
       end).

(** [request_pin_confirm] *)
Definition request_pin_confirm (ctx : Context) (args : list string) : Co.t pyval :=
  Co.while (fun _ : unit =>
              pin1 <- request_pin_ack ctx ("Enter new PIN" :: args);;
              pin2 <- request_pin_ack ctx ("Re-enter new PIN" :: args);;
              if py_eq pin1 pin2 then Co.ret (inr pin1)
              else
                pin_mismatch;;
                Co.ret (inl tt)) tt.

(** [require_confirm_change_pin] *)
Definition require_confirm_change_pin (ctx : Context) (msg : ChangePin) : Co.t unit :=
  has_pin <- Co.call HasPin;;
  if remove msg && has_pin then (* removing pin *)
    let text := mkText "Remove PIN" [] in
    let text := normal text ["Do you really want to"] in
    let text := bold text ["remove current PIN?"] in
    Co.call_r (RequireConfirm ctx text)
  else if negb (remove msg) && has_pin then (* changing pin *)
    let text := mkText "Remove PIN" [] in
    let text := normal text ["Do you really want to"] in
    let text := bold text ["change current PIN?"] in
    Co.call_r (RequireConfirm ctx text)
  else if negb (remove msg) && negb has_pin then (* setting new pin *)
    let text := mkText "Remove PIN" [] in
    let text := normal text ["Do you really want to"] in
    let text := bold text ["set new PIN?"] in
    Co.call_r (RequireConfirm ctx text)
  else Co.ret tt.

Definition pin_to_int_co (pin : pyval) : Co.t Z := Ret (pin_to_int pin).

(** [change_pin] *)
Definition change_pin (ctx : Context) (msg : ChangePin) : Co.t Message :=
  (* confirm that user wants to change the pin *)
  require_confirm_change_pin ctx msg;;
  (* get current pin, return failure if invalid *)
  has_pin <- Co.call HasPin;;
  curpin <- (if has_pin : bool then
               curpin <- request_pin_ack ctx [];;
               pin <- pin_to_int_co curpin;;
               ok <- Co.call (CheckPin pin);;
               if negb ok then Co.raise (PinInvalid "PIN invalid")
               else Co.ret curpin
             else Co.ret (VStr ""));;
  (* get new pin *)
  newpin <- (if negb (remove msg) then request_pin_confirm ctx []
             else Co.ret (VStr ""));;
  (* write into storage *)
  pin <- pin_to_int_co curpin;;
  pin' <- pin_to_int_co newpin;;
  ok <- Co.call (ConfigChangePin pin pin');;
  if negb ok then Co.raise (PinInvalid "PIN invalid")
  else if truthy newpin then Co.ret (Success "PIN changed")
  else Co.ret (Success "PIN removed").

End ChangePinWorkflow.

(* ===================================================================== *)
(** * Runs *)
(* ===================================================================== *)

(** [runs t tr r]: against the environment that gives the answers recorded
    in [tr], the tree [t] makes exactly the calls of [tr], in that order,
    and ends with [r].  A coroutine that is left suspended, or that loops
    for ever, has no run. *)
Inductive runs {R : Type} : itree wireE R -> trace -> R -> Prop :=
| runs_ret t r :
    observe t = RetF r -> runs t [] r
| runs_tau t u tr r :
    observe t = TauF u -> runs u tr r -> runs t tr r
| runs_vis X (e : wireE X) t k x tr r :
    observe t = VisF e k -> runs (k x) tr r -> runs t (Ev e x :: tr) r.

(** [steps t tr t']: after the calls of [tr], answered as recorded, the tree
    [t] has become [t'].  Unlike a run, this also speaks of coroutines that
    never end. *)
Inductive steps {R : Type} : itree wireE R -> trace -> itree wireE R -> Prop :=
| steps_done t t' :
    observe t = observe t' -> steps t [] t'
| steps_tau t u tr t' :
    observe t = TauF u -> steps u tr t' -> steps t tr t'
| steps_vis X (e : wireE X) t k x tr t' :
    observe t = VisF e k -> steps (k x) tr t' -> steps t (Ev e x :: tr) t'.

(** The call a tree is about to make. *)
Definition next_call {R X : Type} (t : itree wireE R) (e : wireE X) : Prop :=
  exists k, observe t = VisF e k.

(** What [ITree.iter] does with the answer of a turn of its body. *)
Definition iter_next {I R : Type} (body : I -> itree wireE (I + R)) (lr : I + R)
  : itree wireE R :=
  match lr with
  | inl i => Tau (ITree.iter body i)
  | inr r => Ret r
  end.

(** The answer recorded in an event, read back at the type of a given call
    of the same kind. *)
Definition answer_of {X : Type} (e : wireE X) (ev : event) : option X :=
  match ev with
  | @Ev Y e' y =>
      match e in wireE X, e' in wireE Y return Y -> option X with
      | AOpen _, AOpen _ => Some
      | AReadInto _ _, AReadInto _ _ => Some
      | AClose _, AClose _ => Some
      | GetType _, GetType _ => Some
      | LoadMessage _ _, LoadMessage _ _ => Some
      | DumpMessage _ _, DumpMessage _ _ => Some
      | UnimportBegin, UnimportBegin => Some
      | UnimportEnd _, UnimportEnd _ => Some
      | OnStart, OnStart => Some
      | OnClose, OnClose => Some
      | GetKeychain _ _, GetKeychain _ _ => Some
      | KeychainDel _, KeychainDel _ => Some
      | Spawn _, Spawn _ => Some
      | Sleep _, Sleep _ => Some
      | HasPin, HasPin => Some
      | CheckPin _, CheckPin _ => Some
      | ConfigChangePin _ _, ConfigChangePin _ _ => Some
      | RequireConfirm _ _, RequireConfirm _ _ => Some
      | RequestPin _, RequestPin _ => Some
      | Render _, Render _ => Some
      | _, _ => fun _ => None
      end y
  end.

(* ===================================================================== *)
(** * The traces the properties speak of *)
(* ===================================================================== *)

Section Traces.

Variable wire_type_of : Message -> Z.
Variable count_message : Message -> Z.

(** What [Context.write] does on the interface when the codec accepts the
    frame: the message is dumped into a writer that carries its type tag and
    size, and the writer is closed. *)
Definition write_trace (ctx : Context) (msg : Message) : trace :=
  let writer := setheader (getwriter ctx) (wire_type_of msg) (count_message msg) in
  [Ev (DumpMessage writer msg) (Normal tt); Ev (AClose writer) (Normal tt)].

(** The request decoded from an open reader. *)
Definition load_trace (reader : Reader) (pbtype : MsgClass) (req : Message) : trace :=
  [Ev (GetType (reader_type reader)) (Normal pbtype);
   Ev (LoadMessage reader pbtype) (Normal req)].

(** A header with tag [mtype] and [size] payload bytes arrives on a fresh
    reader of the context. *)
Definition header_trace (ctx : Context) (mtype size : Z) : trace :=
  [Ev (AOpen (getreader ctx)) (Normal (mtype, size))].

End Traces.

(** How many times a trace releases the keychain [k]. *)
Fixpoint releases (k : Keychain) (tr : trace) : nat :=
  match tr with
  | [] => 0%nat
  | Ev e _ :: tr' =>
      (match e with
       | KeychainDel k' => if Z.eqb k k' then 1%nat else 0%nat
       | _ => 0%nat
       end + releases k tr')%nat
  end.

(** The calls of the session loop around a workflow whose own calls are
    [tr]: the import scope is opened and the workflow announced, then closed
    and the scope restored. *)
Definition workflow_trace (m : Z) (tr : trace) : trace :=
  [Ev UnimportBegin m; Ev OnStart tt] ++ tr ++ [Ev OnClose tt; Ev (UnimportEnd m) tt].

(** How a turn of the session loop ends, from the way its workflow ended:
    the reader carried into the next turn, or the exception that escapes. *)
Definition turn_result (o : result pyval) : result (option Reader) :=
  match o with
  | Normal _ => Normal None
  | Raised (UnexpectedMessageError reader) => Normal (Some reader)
  | Raised (Error _ _) => Normal None
  | Raised (PyException _) => Normal None
  | Raised (PyBaseException name) => Raised (PyBaseException name)
  end.

(** The reads by which [unexpected_msg] drains a reader, when the codec
    delivers the payload in the given chunks; each read asks for all the
    bytes that remain. *)
Fixpoint drain_trace (reader : Reader) (chunks : list Z) : trace :=
  match chunks with
  | [] => []
  | n :: chunks' =>
      Ev (AReadInto reader (reader_size reader)) (Normal n)
      :: drain_trace {| reader_iface := reader_iface reader;
                        reader_type := reader_type reader;
                        reader_size := reader_size reader - n |} chunks'
  end.

(** The chunks partition a payload of [size] bytes: each read delivers no
    more than what remains, and nothing remains after the last. *)
Fixpoint chunked (size : Z) (chunks : list Z) : Prop :=
  match chunks with
  | [] => size = 0
  | n :: chunks' => 0 < size /\ 0 <= n <= size /\ chunked (size - n) chunks'
  end.

(** The bytes a trace reads off readers. *)
Fixpoint bytes_read (tr : trace) : Z :=
  match tr with
  | [] => 0
  | Ev e x :: tr' =>
      match e in wireE X return X -> Z with
      | AReadInto _ _ => fun x => match x with Normal n => n | Raised _ => 0 end
      | _ => fun _ => 0
      end x + bytes_read tr'
  end.

(** How a turn of the session loop comes by its reader [reader]: it was
    carried over from the turn before, or no reader was carried over and a
    header arrives on a fresh one, with the calls [tr]. *)
Definition turn_entry (ctx : Context) (start : option Reader) (reader : Reader)
    (tr : trace) : Prop :=
  (start = Some reader /\ tr = [])
  \/ (start = None /\ reader_iface reader = iface ctx /\
      tr = header_trace ctx (reader_type reader) (reader_size reader)).

(** What the host and the user answer to one PIN prompt: the frame that
    acknowledges the button request, and the PIN that is entered. *)
Record pin_entry := mkPinEntry {
  ack_size : Z;
  ack_class : MsgClass;
  ack_message : Message;
  entered_pin : string
}.

Section PinTraces.

Variable wire_type_of : Message -> Z.
Variable count_message : Message -> Z.
Variable MessageType_ButtonAck : Z.

(** One PIN prompt that is answered: the button request is written and
    acknowledged, and the PIN dialog finishes before any other frame
    arrives. *)
Definition pin_prompt_trace (ctx : Context) (args : list string) (e : pin_entry)
  : trace :=
  let reader := {| reader_iface := iface ctx; reader_type := MessageType_ButtonAck;
                   reader_size := ack_size e |} in
  write_trace wire_type_of count_message ctx (ButtonRequest ButtonRequestType.Other)
  ++ header_trace ctx MessageType_ButtonAck (ack_size e)
  ++ [Ev (GetType MessageType_ButtonAck) (Normal (ack_class e));
      Ev (LoadMessage reader (ack_class e)) (Normal (ack_message e))]
  ++ [Ev (Spawn 2) 1%nat; Ev (RequestPin args) (Normal (entered_pin e))].

(** The two prompts of one round of [request_pin_confirm]. *)
Definition pin_round_trace (ctx : Context) (round : pin_entry * pin_entry) : trace :=
  pin_prompt_trace ctx ["Enter new PIN"] round.1
  ++ pin_prompt_trace ctx ["Re-enter new PIN"] round.2.

(** The screen of [pin_mismatch] and its three seconds. *)
Definition mismatch_trace : trace :=
  [Ev (Render (mkText "PIN mismatch"
                 [(NORMAL, "Entered PINs do not"); (NORMAL, "match each other.");
                  (NORMAL, ""); (NORMAL, "Please, try again...")])) tt;
   Ev (Sleep 3000000) tt].

(** Rounds whose two entries differ, each followed by the mismatch screen. *)
Definition retries_trace (ctx : Context) (rounds : list (pin_entry * pin_entry))
  : trace :=
  List.concat (List.map (fun round => pin_round_trace ctx round ++ mismatch_trace) rounds).

(** The confirmation asked on a device without PIN for a request that does
    not remove the PIN, granted by the user. *)
Definition confirm_new_pin_trace (ctx : Context) : trace :=
  [Ev HasPin false;
   Ev (RequireConfirm ctx (mkText "Remove PIN"
                             [(NORMAL, "Do you really want to");
                              (BOLD, "set new PIN?")]))
      (Normal tt)].

End PinTraces.

(** How many times a trace writes the PIN into the credential store. *)
Fixpoint config_writes (tr : trace) : nat :=
  match tr with
  | [] => 0%nat
  | Ev e _ :: tr' =>
      (match e with
       | ConfigChangePin _ _ => 1%nat
       | _ => 0%nat
       end + config_writes tr')%nat
  end.

(* ===================================================================== *)
(** * trezor/wire/__init__.py: registration of imported workflows *)
(* ===================================================================== *)

Section Registration.

Variable wire_type_of : Message -> Z.
Variable count_message : Message -> Z.

(** Missing from the sources: the modules of the firmware.
    [import_module modpath modname] is what
    [getattr(__import__(modpath, None, None, (modname,), 0), modname)] gives:
    the handler of that name in the module, or the exception raised by the
    import or by the attribute lookup. *)
Variable import_module : string -> string -> result Handler.

(** [import_workflow]: a plain function; the import happens when it is
    called, and what is awaited is the coroutine of the imported handler. *)
Definition import_workflow (ctx : Context) (req : Message)
    (pkgname modname : string) (args : list pyval) : Co.t pyval :=
  let modpath := (pkgname ++ "." ++ modname)%string in
  match import_module modpath modname with
  | Normal handler => handler ctx req args
  | Raised exc => Co.raise exc
  end.

(** [add].  In the Python the entry is [protobuf_workflow] with the bound
    arguments [(keychain_workflow, namespace, import_workflow, pkgname,
    modname)], which each adapter takes from the front of its [*args] and
    passes on.  The values of [pyval] hold no callables: the bound arguments
    are applied here to the adapter that takes them, and the list that is
    left for the entry is empty. *)
Definition add (mtype : mtype_arg) (pkgname modname : string)
    (namespace : option (list pyval)) (workflow_handlers : registry)
  : result unit * registry :=
  match namespace with
  | Some namespace =>
      register mtype
        (fun ctx reader args =>
           protobuf_workflow wire_type_of count_message ctx reader
             (fun ctx req args =>
                keychain_workflow ctx req namespace
                  (fun ctx req args => import_workflow ctx req pkgname modname args)
                  args)
             args)
        [] workflow_handlers
  | None =>
      register mtype
        (fun ctx reader args =>
           protobuf_workflow wire_type_of count_message ctx reader
             (fun ctx req args => import_workflow ctx req pkgname modname args)
             args)
        [] workflow_handlers
  end.

End Registration.

(* ===================================================================== *)
(** * More traces *)
(* ===================================================================== *)

(** The tag under which [register] enters its first argument. *)
Definition tag_of (mtype : mtype_arg) : Z :=
  match mtype with
  | MClass c => MESSAGE_WIRE_TYPE c
  | MInt n => n
  end.

(** The reader after the codec has delivered the given chunks. *)
Fixpoint reader_after (reader : Reader) (chunks : list Z) : Reader :=
  match chunks with
  | [] => reader
  | n :: chunks' =>
      reader_after {| reader_iface := reader_iface reader;
                      reader_type := reader_type reader;
                      reader_size := reader_size reader - n |} chunks'
  end.

(** Each of the chunks is read while bytes remain. *)
Fixpoint draining (size : Z) (chunks : list Z) : Prop :=
  match chunks with
  | [] => True
  | n :: chunks' => 0 < size /\ draining (size - n) chunks'
  end.

(** The question [require_confirm_change_pin] puts to the user, by the
    [remove] flag of the request and by whether a PIN is stored; none when a
    removal is asked of a device without PIN. *)
Definition confirm_question (remove has_pin : bool) : option string :=
  match remove, has_pin with
  | true, true => Some "remove current PIN?"
  | false, true => Some "change current PIN?"
  | false, false => Some "set new PIN?"
  | true, false => None
  end.

(** The calls of [require_confirm_change_pin] when the user answers
    [answer]. *)
Definition confirm_trace (ctx : Context) (remove has_pin : bool)
    (answer : result unit) : trace :=
  Ev HasPin has_pin ::
  match confirm_question remove has_pin with
  | Some question =>
      [Ev (RequireConfirm ctx (mkText "Remove PIN"
                                 [(NORMAL, "Do you really want to");
                                  (BOLD, question)])) answer]
  | None => []
  end.

(** How many PIN dialogs a trace shows. *)
Fixpoint pin_prompts (tr : trace) : nat :=
  match tr with
  | [] => 0%nat
  | Ev e _ :: tr' =>
      (match e with
       | RequestPin _ => 1%nat
       | _ => 0%nat
       end + pin_prompts tr')%nat
  end.

(** The messages a trace dumps into writers, in order. *)
Fixpoint messages_written (tr : trace) : list Message :=
  match tr with
  | [] => []
  | Ev e _ :: tr' =>
      match e with
      | DumpMessage _ msg => msg :: messages_written tr'
      | _ => messages_written tr'
      end
  end.

Section MorePinTraces.

Variable wire_type_of : Message -> Z.
Variable count_message : Message -> Z.
Variable MessageType_ButtonAck : Z.

(** The handshake before a dialog: the button request is written, and the
    host acknowledges it. *)
Definition button_ack_trace (ctx : Context) (e : pin_entry) : trace :=
  let reader := {| reader_iface := iface ctx; reader_type := MessageType_ButtonAck;
                   reader_size := ack_size e |} in
  write_trace wire_type_of count_message ctx (ButtonRequest ButtonRequestType.Other)
  ++ header_trace ctx MessageType_ButtonAck (ack_size e)
  ++ [Ev (GetType MessageType_ButtonAck) (Normal (ack_class e));
      Ev (LoadMessage reader (ack_class e)) (Normal (ack_message e))].

End MorePinTraces.
(* ===================================================================== *)
(** * Properties of runs *)
(* ===================================================================== *)

Lemma runs_observe R (t u : itree wireE R) tr r :
  observe t = observe u -> runs t tr r -> runs u tr r.
Proof.
  intros Heq Hr. destruct Hr.
  - apply runs_ret. congruence.
  - eapply runs_tau; [|eassumption]. congruence.
  - eapply runs_vis; [|eassumption]. congruence.
Qed.

Lemma runs_Ret R (r : R) : runs (Ret r : itree wireE R) [] r.
Proof. now apply runs_ret. Qed.

Lemma runs_Ret_inv R (r r' : R) tr :
  runs (Ret r : itree wireE R) tr r' -> tr = [] /\ r' = r.
Proof.
  intros H. inversion H; subst; cbn in *; try discriminate.
  split; congruence.
Qed.

(** The first call of a tree that starts with a call. *)
Lemma runs_Vis_inv R X (e : wireE X) (ke : X -> itree wireE R) t tr r :
  observe t = VisF e ke ->
  runs t tr r -> exists x tr', tr = Ev e x :: tr' /\ runs (ke x) tr' r.
Proof.
  intros Ht H. destruct H as [t r H|t u tr r H Hu|Y e' t k' x tr r H Hk];
    rewrite Ht in H; try discriminate.
  revert x Hk.
  refine (match H in _ = w return
            match w with
            | VisF e0 k0 => forall x, runs (k0 x) tr r -> _
            | _ => True
            end with eq_refl => _ end).
  intros x Hk. now exists x, tr.
Qed.

Section BindFacts.

Context {A B : Type}.
Implicit Types (t : itree wireE A) (k : A -> itree wireE B).

Lemma observe_bind t k :
  observe (ITree.bind t k) =
  match observe t with
  | RetF r => observe (k r)
  | TauF t' => TauF (ITree.bind t' k)
  | VisF e ke => VisF e (fun x => ITree.bind (ke x) k)
  end.
Proof. unfold observe at 1. cbn. destruct (observe t); reflexivity. Qed.

Lemma runs_bind t k tr1 a tr2 b :
  runs t tr1 a -> runs (k a) tr2 b -> runs (ITree.bind t k) (tr1 ++ tr2) b.
Proof.
  intros Ht Hk. induction Ht as [t r H|t u tr r H Ht IH|X e t k' x tr r H Ht IH].
  - apply (runs_observe (t:=k r)); [|exact Hk].
    now rewrite observe_bind, H.
  - eapply runs_tau; [|apply IH, Hk]. now rewrite observe_bind, H.
  - cbn [app]. eapply runs_vis with (k := fun x => ITree.bind (k' x) k); [|apply IH, Hk].
    now rewrite observe_bind, H.
Qed.

Lemma runs_bind_inv t k tr b :
  runs (ITree.bind t k) tr b ->
  exists tr1 a tr2, runs t tr1 a /\ runs (k a) tr2 b /\ tr = tr1 ++ tr2.
Proof.
  intros H. remember (ITree.bind t k) as u eqn:Hu.
  revert t Hu. induction H as [u r H|u v tr r H Hv IH|X e u k' x tr r H Hv IH]; intros t ->;
    rewrite observe_bind in H; destruct (observe t) as [a|t'|Y e' k''] eqn:Ht;
    try discriminate.
  - exists [], a, []. repeat split; now apply runs_ret.
  - exists [], a, tr. repeat split.
    + now apply runs_ret.
    + eapply runs_tau; eassumption.
  - injection H as <-.
    destruct (IH t' eq_refl) as (tr1 & a & tr2 & H1 & H2 & ->).
    exists tr1, a, tr2. repeat split; auto. eapply runs_tau; eassumption.
  - exists [], a, (Ev e x :: tr). repeat split.
    + now apply runs_ret.
    + eapply runs_vis; eassumption.
  - revert x Hv IH.
    refine (match H in _ = w return
              match w with
              | VisF e0 k0 => forall x, runs (k0 x) tr r -> _ -> _
              | _ => True
              end with eq_refl => _ end).
    intros x Hv IH.
    destruct (IH (k'' x) eq_refl) as (tr1 & a & tr2 & H1 & H2 & ->).
    exists (Ev e' x :: tr1), a, tr2. repeat split; auto.
    eapply runs_vis; eassumption.
Qed.

End BindFacts.

Lemma runs_trigger X (e : wireE X) (x : X) : runs (ITree.trigger e) [Ev e x] x.
Proof. eapply runs_vis; [reflexivity|]. now apply runs_ret. Qed.

Lemma runs_trigger_inv X (e : wireE X) tr (x : X) :
  runs (ITree.trigger e) tr x -> tr = [Ev e x].
Proof.
  intros H. eapply runs_Vis_inv in H; [|reflexivity].
  destruct H as (y & tr' & -> & H). apply runs_Ret_inv in H as [-> ->]. reflexivity.
Qed.

(** ** Loops *)

Section IterFacts.

Context {I R : Type} (body : I -> itree wireE (I + R)).

Lemma observe_iter (i : I) :
  observe (ITree.iter body i) = observe (ITree.bind (body i) (iter_next body)).
Proof. reflexivity. Qed.

Lemma runs_iter_exit i tr r :
  runs (body i) tr (inr r) -> runs (ITree.iter body i) tr r.
Proof.
  intros H. eapply runs_observe; [symmetry; apply observe_iter|].
  rewrite <- (app_nil_r tr). eapply runs_bind; [exact H|]. apply runs_Ret.
Qed.

Lemma runs_iter_continue i tr1 i' tr2 r :
  runs (body i) tr1 (inl i') -> runs (ITree.iter body i') tr2 r ->
  runs (ITree.iter body i) (tr1 ++ tr2) r.
Proof.
  intros H1 H2. eapply runs_observe; [symmetry; apply observe_iter|].
  eapply runs_bind; [exact H1|]. eapply runs_tau; [reflexivity|exact H2].
Qed.

(** A loop can only end with a result that some turn of its body gave, and
    an invariant of the turns holds at every turn. *)
Lemma runs_iter_inv (Inv : I -> Prop) (Q : R -> Prop) :
  (forall i tr lr, Inv i -> runs (body i) tr lr ->
                   match lr with inl i' => Inv i' | inr r => Q r end) ->
  forall i tr r, Inv i -> runs (ITree.iter body i) tr r -> Q r.
Proof.
  intros Hbody.
  assert (G : forall (u : itree wireE R) tr r, runs u tr r ->
            forall t : itree wireE (I + R),
              observe u = observe (ITree.bind t (iter_next body)) ->
              (forall tr' lr, runs t tr' lr ->
                  match lr with inl i' => Inv i' | inr r' => Q r' end) ->
              Q r).
  { induction 1 as [u r H|u v tr r H Hv IH|X e u k x tr r H Hv IH]; intros t Hu Ht;
      rewrite Hu, observe_bind in H;
      destruct (observe t) as [[i'|r']|t'|Y e' k'] eqn:Hobs; cbn in H; try discriminate.
    - injection H as ->. apply (Ht [] (inr r)). now apply runs_ret.
    - injection H as <-. apply (IH (body i')); [apply observe_iter|].
      intros tr' lr. apply Hbody. apply (Ht [] (inl i')). now apply runs_ret.
    - injection H as <-. apply (IH t'); [reflexivity|].
      intros tr' lr Hr. apply (Ht tr'). eapply runs_tau; eassumption.
    - revert x Hv IH.
      refine (match H in _ = w return
                match w with
                | VisF e0 k0 => forall x, runs (k0 x) tr r -> _ -> _
                | _ => True
                end with eq_refl => _ end).
      intros x Hv IH. apply (IH (k' x)); [reflexivity|].
      intros tr' lr Hr. apply (Ht (Ev e' x :: tr')). eapply runs_vis; eassumption. }
  intros i tr r Hi H. apply (G _ _ _ H (body i)); [apply observe_iter|].
  intros tr' lr. now apply Hbody.
Qed.

End IterFacts.

(** ** Steps *)

Lemma steps_observe R (t u t' : itree wireE R) tr :
  observe t = observe u -> steps t tr t' -> steps u tr t'.
Proof.
  intros Heq H. destruct H.
  - apply steps_done. congruence.
  - eapply steps_tau; [|eassumption]. congruence.
  - eapply steps_vis; [|eassumption]. congruence.
Qed.

Lemma steps_trans R (t t' t'' : itree wireE R) tr1 tr2 :
  steps t tr1 t' -> steps t' tr2 t'' -> steps t (tr1 ++ tr2) t''.
Proof.
  intros H1 H2. induction H1 as [t t' H|t u tr t' H Hu IH|X e t k x tr t' H Hk IH].
  - eapply steps_observe; [symmetry; exact H|exact H2].
  - eapply steps_tau; [exact H|now apply IH].
  - cbn [app]. eapply steps_vis; [exact H|now apply IH].
Qed.

Lemma steps_runs R (t t' : itree wireE R) tr1 tr2 r :
  steps t tr1 t' -> runs t' tr2 r -> runs t (tr1 ++ tr2) r.
Proof.
  intros H1 H2. induction H1 as [t t' H|t u tr t' H Hu IH|X e t k x tr t' H Hk IH].
  - eapply runs_observe; [symmetry; exact H|exact H2].
  - eapply runs_tau; [exact H|now apply IH].
  - cbn [app]. eapply runs_vis; [exact H|now apply IH].
Qed.

Lemma steps_bind A B (t : itree wireE A) (k : A -> itree wireE B) tr a :
  runs t tr a -> steps (ITree.bind t k) tr (k a).
Proof.
  induction 1 as [t r H|t u tr r H Ht IH|X e t k' x tr r H Ht IH].
  - apply steps_done. now rewrite observe_bind, H.
  - eapply steps_tau; [|exact IH]. now rewrite observe_bind, H.
  - eapply steps_vis with (k := fun x => ITree.bind (k' x) k); [|exact IH].
    now rewrite observe_bind, H.
Qed.

Lemma steps_iter I R (body : I -> itree wireE (I + R)) i tr i' :
  runs (body i) tr (inl i') -> steps (ITree.iter body i) tr (ITree.iter body i').
Proof.
  intros H. eapply steps_observe; [symmetry; apply observe_iter|].
  rewrite <- (app_nil_r tr). eapply steps_trans; [apply steps_bind, H|].
  eapply steps_tau; [reflexivity|]. now apply steps_done.
Qed.

(** ** The next call *)

Lemma next_call_trigger X (e : wireE X) : next_call (ITree.trigger e) e.
Proof. eexists. reflexivity. Qed.

Lemma next_call_bind A B X (t : itree wireE A) (k : A -> itree wireE B) (e : wireE X) :
  next_call t e -> next_call (ITree.bind t k) e.
Proof. intros [ke H]. eexists. rewrite observe_bind, H. reflexivity. Qed.

Lemma next_call_bind_ret A B X (a : A) (k : A -> itree wireE B) (e : wireE X) :
  next_call (k a) e -> next_call (ITree.bind (Ret a) k) e.
Proof. intros [ke H]. exists ke. rewrite observe_bind. exact H. Qed.

Lemma next_call_iter I R X (body : I -> itree wireE (I + R)) (i : I) (e : wireE X) :
  next_call (body i) e -> next_call (ITree.iter body i) e.
Proof.
  intros H. apply (next_call_bind (iter_next body)) in H as [ke H].
  exists ke. now rewrite observe_iter.
Qed.

(** Goes down the binds at the head of a tree to the call it starts with. *)
Ltac find_next_call :=
  repeat first [ apply next_call_trigger
               | apply next_call_bind_ret
               | apply next_call_bind
               | progress unfold Co.bind, Co.try_except, Co.try_finally,
                                 Co.call, Co.call_r, Co.ret, aopen ].

(** ** One environment, one run *)

Lemma answer_of_Ev X (e : wireE X) (x : X) : answer_of e (Ev e x) = Some x.
Proof. destruct e; reflexivity. Qed.

Lemma Ev_inj X (e : wireE X) (x y : X) : Ev e x = Ev e y -> x = y.
Proof.
  intros H. apply (f_equal (answer_of e)) in H.
  rewrite !answer_of_Ev in H. congruence.
Qed.

(** A run cannot be continued: after the calls of a run, answered as they
    were, the tree makes no further call and has its result. *)
Lemma runs_prefix R (t : itree wireE R) tr s r r' :
  runs t tr r -> runs t (tr ++ s) r' -> s = [] /\ r = r'.
Proof.
  intros H. revert r'.
  induction H as [t r H|t u tr r H Hu IH|X e t k x tr r H Hk IH]; intros r' H'.
  - cbn in H'. destruct H' as [t r' H'|t u' tr r' H' Hu'|Y e' t k' x' tr r' H' Hk'];
      rewrite H in H'; try discriminate. split; congruence.
  - destruct H' as [t r' H'|t u' tr' r' H' Hu'|Y e' t k' x' tr' r' H' Hk'].
    + congruence.
    + apply IH. congruence.
    + congruence.
  - eapply runs_Vis_inv in H'; [|exact H].
    destruct H' as (y & tr' & Heq & H'). cbn in Heq.
    assert (Htl : tr ++ s = tr') by exact (f_equal (@tl event) Heq).
    assert (Hhd : Ev e x = Ev e y) by exact (f_equal (hd (Ev e x)) Heq).
    subst tr'. apply Ev_inj in Hhd as <-. now apply IH.
Qed.

(** The result of a run is determined by the answers of the environment. *)
Lemma runs_functional R (t : itree wireE R) tr r r' :
  runs t tr r -> runs t tr r' -> r = r'.
Proof.
  intros H H'. rewrite <- (app_nil_r tr) in H'.
  now destruct (runs_prefix H H').
Qed.

(** ** Runs of coroutines *)

Section CoFacts.

Context {A B : Type}.

Lemma runs_co_ret (a : A) : runs (Co.ret a) [] (Normal a).
Proof. apply runs_Ret. Qed.

Lemma runs_co_raise (e : exn) : runs (Co.raise e : Co.t A) [] (Raised e).
Proof. apply runs_Ret. Qed.

Lemma runs_co_call (e : wireE A) (x : A) : runs (Co.call e) [Ev e x] (Normal x).
Proof. apply (runs_bind (runs_trigger e x)). apply runs_Ret. Qed.

Lemma runs_co_call_r (e : wireE (result A)) (x : result A) :
  runs (Co.call_r e) [Ev e x] x.
Proof. apply runs_trigger. Qed.

Lemma runs_co_bind (m : Co.t A) (k : A -> Co.t B) tr1 a tr2 o :
  runs m tr1 (Normal a) -> runs (k a) tr2 o -> runs (Co.bind m k) (tr1 ++ tr2) o.
Proof. intros H1 H2. exact (runs_bind H1 H2). Qed.

Lemma runs_co_bind_raised (m : Co.t A) (k : A -> Co.t B) tr e :
  runs m tr (Raised e) -> runs (Co.bind m k) tr (Raised e).
Proof.
  intros H. rewrite <- (app_nil_r tr). apply (runs_bind H). apply runs_Ret.
Qed.

Lemma runs_co_bind_inv (m : Co.t A) (k : A -> Co.t B) tr o :
  runs (Co.bind m k) tr o ->
  (exists tr1 a tr2, runs m tr1 (Normal a) /\ runs (k a) tr2 o /\ tr = tr1 ++ tr2)
  \/ (exists e, runs m tr (Raised e) /\ o = Raised e).
Proof.
  intros H. apply runs_bind_inv in H as (tr1 & [a|e] & tr2 & H1 & H2 & ->).
  - left. now exists tr1, a, tr2.
  - right. apply runs_Ret_inv in H2 as [-> ->]. rewrite app_nil_r. now exists e.
Qed.

Lemma runs_co_call_inv (e : wireE A) tr o :
  runs (Co.call e) tr o -> exists x, tr = [Ev e x] /\ o = Normal x.
Proof.
  intros H. apply runs_bind_inv in H as (tr1 & x & tr2 & H1 & H2 & ->).
  apply runs_trigger_inv in H1 as ->. apply runs_Ret_inv in H2 as [-> ->].
  now exists x.
Qed.

Lemma runs_co_call_r_inv (e : wireE (result A)) tr o :
  runs (Co.call_r e) tr o -> tr = [Ev e o].
Proof. apply runs_trigger_inv. Qed.

Lemma runs_try_except_normal (m : Co.t A) (h : exn -> Co.t A) tr a :
  runs m tr (Normal a) -> runs (Co.try_except m h) tr (Normal a).
Proof.
  intros H. rewrite <- (app_nil_r tr). apply (runs_bind H). apply runs_Ret.
Qed.

Lemma runs_try_except_raised (m : Co.t A) (h : exn -> Co.t A) tr1 e tr2 o :
  runs m tr1 (Raised e) -> runs (h e) tr2 o ->
  runs (Co.try_except m h) (tr1 ++ tr2) o.
Proof. intros H1 H2. exact (runs_bind H1 H2). Qed.

Lemma runs_try_except_inv (m : Co.t A) (h : exn -> Co.t A) tr o :
  runs (Co.try_except m h) tr o ->
  (exists a, runs m tr (Normal a) /\ o = Normal a)
  \/ (exists tr1 e tr2, runs m tr1 (Raised e) /\ runs (h e) tr2 o /\ tr = tr1 ++ tr2).
Proof.
  intros H. apply runs_bind_inv in H as (tr1 & [a|e] & tr2 & H1 & H2 & ->).
  - left. apply runs_Ret_inv in H2 as [-> ->]. rewrite app_nil_r. now exists a.
  - right. now exists tr1, e, tr2.
Qed.

Lemma runs_try_finally (m : Co.t A) (f : Co.t unit) tr1 o tr2 :
  runs m tr1 o -> runs f tr2 (Normal tt) ->
  runs (Co.try_finally m f) (tr1 ++ tr2) o.
Proof.
  intros H1 H2. apply (runs_bind H1).
  rewrite <- (app_nil_r tr2). apply (runs_bind H2). apply runs_Ret.
Qed.

End CoFacts.

Lemma runs_try_finally_inv A (m : Co.t A) (f : Co.t unit) tr o :
  runs (Co.try_finally m f) tr o ->
  exists tr1 o1 tr2 o2,
    runs m tr1 o1 /\ runs f tr2 o2 /\ tr = tr1 ++ tr2 /\
    o = match o2 with Normal _ => o1 | Raised e => Raised e end.
Proof.
  intros H. apply runs_bind_inv in H as (tr1 & o1 & tr2 & H1 & H2 & ->).
  apply runs_co_bind_inv in H2 as [(tr3 & [] & tr4 & H3 & H4 & ->)|(e & H3 & ->)].
  - apply runs_Ret_inv in H4 as [-> ->]. rewrite app_nil_r.
    now exists tr1, o1, tr3, (Normal tt).
  - now exists tr1, o1, tr2, (Raised e).
Qed.

Section WhileFacts.

Context {I A : Type} (body : I -> Co.t (I + A)).

Lemma runs_while_exit i tr a :
  runs (body i) tr (Normal (inr a)) -> runs (Co.while body i) tr (Normal a).
Proof.
  intros H. apply runs_iter_exit. rewrite <- (app_nil_r tr).
  apply (runs_bind H). apply runs_Ret.
Qed.

Lemma runs_while_raised i tr e :
  runs (body i) tr (Raised e) -> runs (Co.while body i) tr (Raised e).
Proof.
  intros H. apply runs_iter_exit. rewrite <- (app_nil_r tr).
  apply (runs_bind H). apply runs_Ret.
Qed.

Lemma runs_while_continue i tr1 i' tr2 o :
  runs (body i) tr1 (Normal (inl i')) -> runs (Co.while body i') tr2 o ->
  runs (Co.while body i) (tr1 ++ tr2) o.
Proof.
  intros H1 H2. eapply runs_iter_continue; [|exact H2].
  rewrite <- (app_nil_r tr1). apply (runs_bind H1). apply runs_Ret.
Qed.

(** A turn that goes round brings the loop to its next turn. *)
Lemma steps_while i tr i' :
  runs (body i) tr (Normal (inl i')) -> steps (Co.while body i) tr (Co.while body i').
Proof.
  intros H. apply steps_iter. rewrite <- (app_nil_r tr).
  apply (runs_bind H). apply runs_Ret.
Qed.

(** A [while] loop ends only by a turn that leaves it or that raises. *)
Lemma runs_while_inv (Inv : I -> Prop) (Q : result A -> Prop) :
  (forall i tr o, Inv i -> runs (body i) tr o ->
                  match o with
                  | Normal (inl i') => Inv i'
                  | Normal (inr a) => Q (Normal a)
                  | Raised e => Q (Raised e)
                  end) ->
  forall i tr o, Inv i -> runs (Co.while body i) tr o -> Q o.
Proof.
  intros Hbody. apply runs_iter_inv. intros i tr lr Hi H.
  apply runs_bind_inv in H as (tr1 & o & tr2 & H1 & H2 & ->).
  specialize (Hbody i tr1 o Hi H1).
  destruct o as [[i'|a]|e]; apply runs_Ret_inv in H2 as [-> ->]; exact Hbody.
Qed.

End WhileFacts.

(** A [try] block that starts with a step that does not raise. *)
Lemma runs_try_except_bind A B (m : Co.t A) (k : A -> Co.t B) (h : exn -> Co.t B)
    tr1 a tr2 o :
  runs m tr1 (Normal a) -> runs (Co.try_except (k a) h) tr2 o ->
  runs (Co.try_except (Co.bind m k) h) (tr1 ++ tr2) o.
Proof.
  intros Hm H. apply runs_bind_inv in H as (t1 & x & t2 & Hk & Hh & ->).
  rewrite app_assoc. eapply runs_bind; [|exact Hh].
  eapply runs_co_bind; eassumption.
Qed.

Lemma runs_try_except_bind_inv A B (m : Co.t A) (k : A -> Co.t B)
    (h : exn -> Co.t B) tr o :
  runs (Co.try_except (Co.bind m k) h) tr o ->
  (exists tr1 a tr2, runs m tr1 (Normal a) /\
                     runs (Co.try_except (k a) h) tr2 o /\ tr = tr1 ++ tr2)
  \/ (exists tr1 e tr2, runs m tr1 (Raised e) /\ runs (h e) tr2 o /\ tr = tr1 ++ tr2).
Proof.
  intros H. apply runs_bind_inv in H as (t1 & x & t2 & Hb & Hh & ->).
  apply runs_co_bind_inv in Hb as [(t3 & a & t4 & Hm & Hk & ->)|(e & Hm & ->)].
  - left. exists t3, a, (t4 ++ t2). rewrite app_assoc. repeat split; auto.
    eapply runs_bind; eassumption.
  - right. now exists t1, e, t2.
Qed.

(* ===================================================================== *)
(** * The workflow registry *)
(* ===================================================================== *)

Lemma register_present (workflow_handlers : registry) mtype tag handler args :
  tag = match mtype with MClass c => MESSAGE_WIRE_TYPE c | MInt n => n end ->
  is_Some (workflow_handlers !! tag) ->
  register mtype handler args workflow_handlers = (Raised KeyError, workflow_handlers).
Proof.
  intros -> [entry Hentry]. unfold register. now rewrite Hentry.
Qed.

Lemma register_absent (workflow_handlers : registry) mtype tag handler args :
  tag = match mtype with MClass c => MESSAGE_WIRE_TYPE c | MInt n => n end ->
  workflow_handlers !! tag = None ->
  register mtype handler args workflow_handlers
  = (Normal tt, <[tag := (handler, args)]> workflow_handlers).
Proof.
  intros -> Hnone. unfold register. now rewrite Hnone.
Qed.

(** C6.  Registering a tag that the table already holds raises [KeyError]
    and leaves the table as it was; registering a tag that is absent
    succeeds, after which a second registration of that tag fails, while the
    entries of all other tags are untouched, so that a distinct absent tag
    can still be registered and both entries are then found. *)
Theorem register_duplicate_fails_distinct_coexist
    (workflow_handlers : registry) (tag tag' : Z)
    (handler handler' handler'' : Workflow) (args args' args'' : list pyval) :
  workflow_handlers !! tag = None ->
  tag' <> tag ->
  let registered := <[tag := (handler, args)]> workflow_handlers in
  (forall present : registry, is_Some (present !! tag) ->
     register (MInt tag) handler' args' present = (Raised KeyError, present))
  /\ register (MInt tag) handler args workflow_handlers = (Normal tt, registered)
  /\ register (MInt tag) handler' args' registered = (Raised KeyError, registered)
  /\ registered !! tag' = workflow_handlers !! tag'
  /\ (workflow_handlers !! tag' = None ->
      let both := <[tag' := (handler'', args'')]> registered in
      register (MInt tag') handler'' args'' registered = (Normal tt, both)
      /\ both !! tag = Some (handler, args)
      /\ both !! tag' = Some (handler'', args'')).
Proof.
  intros Hnone Hne registered. repeat split.
  - intros present Hp. now apply register_present with (tag := tag).
  - now apply register_absent.
  - apply register_present with (tag := tag); [reflexivity|].
    unfold registered. rewrite lookup_insert_eq. now eexists.
  - unfold registered. now rewrite lookup_insert_ne.
  - apply register_absent; [reflexivity|].
    unfold registered. now rewrite lookup_insert_ne.
  - rewrite lookup_insert_ne by congruence.
    unfold registered. now rewrite lookup_insert_eq.
  - now rewrite lookup_insert_eq.
Qed.

Lemma register_duplicate_fails_distinct_coexist_witness :
  let h : Workflow := fun _ _ _ => Co.ret VNone in
  let registered : registry := <[1 := (h, [])]> ∅ in
  register (MInt 1) h [] (∅ : registry) = (Normal tt, registered)
  /\ register (MInt 1) h [VInt 7] registered = (Raised KeyError, registered).
Proof.
  intros h registered.
  destruct (@register_duplicate_fails_distinct_coexist ∅ 1 2 h h h [] [VInt 7] [])
    as (_ & H1 & H2 & _).
  - apply lookup_empty.
  - lia.
  - split; [exact H1|exact H2].
Defined.

(** C10.  [register] takes an integer tag or a message class; a class is
    entered under its [MESSAGE_WIRE_TYPE], so that the entry is found by that
    integer, by the lookup of the session loop too, and registering the
    integer afterwards, or the class after the integer, raises [KeyError]. *)
Theorem register_class_uses_wire_type
    (wire_type_of count_message : Message -> Z)
    (workflow_handlers : registry) (c : MsgClass)
    (handler handler' : Workflow) (args args' : list pyval) :
  workflow_handlers !! MESSAGE_WIRE_TYPE c = None ->
  let registered := <[MESSAGE_WIRE_TYPE c := (handler, args)]> workflow_handlers in
  register (MClass c) handler args workflow_handlers = (Normal tt, registered)
  /\ register (MInt (MESSAGE_WIRE_TYPE c)) handler args workflow_handlers
     = (Normal tt, registered)
  /\ registered !! MESSAGE_WIRE_TYPE c = Some (handler, args)
  /\ (forall reader, reader_type reader = MESSAGE_WIRE_TYPE c ->
        find_handler wire_type_of count_message registered reader = (handler, args))
  /\ register (MInt (MESSAGE_WIRE_TYPE c)) handler' args' registered
     = (Raised KeyError, registered)
  /\ register (MClass c) handler' args' registered = (Raised KeyError, registered).
Proof.
  intros Hnone registered.
  assert (Hin : registered !! MESSAGE_WIRE_TYPE c = Some (handler, args))
    by (unfold registered; now rewrite lookup_insert_eq).
  repeat split.
  - now apply register_absent.
  - now apply register_absent.
  - exact Hin.
  - intros reader Hty. unfold find_handler. now rewrite Hty, Hin.
  - apply register_present with (tag := MESSAGE_WIRE_TYPE c); [reflexivity|].
    rewrite Hin. now eexists.
  - apply register_present with (tag := MESSAGE_WIRE_TYPE c); [reflexivity|].
    rewrite Hin. now eexists.
Qed.

Lemma register_class_uses_wire_type_witness :
  let h : Workflow := fun _ _ _ => Co.ret VNone in
  let c := mkMsgClass "ChangePin" 4 in
  let registered : registry := <[4 := (h, [])]> ∅ in
  register (MClass c) h [] (∅ : registry) = (Normal tt, registered)
  /\ register (MInt 4) h [] registered = (Raised KeyError, registered).
Proof.
  intros h c registered.
  destruct (@register_class_uses_wire_type (fun _ => 0) (fun _ => 0) ∅ c h h [] [])
    as (H1 & _ & _ & _ & H2 & _).
  - apply lookup_empty.
  - split; [exact H1|exact H2].
Defined.

(* ===================================================================== *)
(** * The session context *)
(* ===================================================================== *)

(** One step of a run of a tree whose head computes. *)
Ltac run_step :=
  first [ apply runs_ret; cbn; reflexivity
        | eapply runs_vis; [cbn; reflexivity|]
        | eapply runs_tau; [cbn; reflexivity|] ].
Ltac run := cbn [app]; repeat run_step.

Lemma runs_aopen (reader : Reader) (answer : result (Z * Z)) :
  runs (aopen reader) [Ev (AOpen reader) answer]
       match answer with
       | Normal h => Normal {| reader_iface := reader_iface reader;
                               reader_type := fst h; reader_size := snd h |}
       | Raised e => Raised e
       end.
Proof. destruct answer; run. Qed.

Lemma runs_aopen_inv (reader : Reader) tr o :
  runs (aopen reader) tr o ->
  exists answer, tr = [Ev (AOpen reader) answer] /\
    o = match answer with
        | Normal h => Normal {| reader_iface := reader_iface reader;
                                reader_type := fst h; reader_size := snd h |}
        | Raised e => Raised e
        end.
Proof.
  intros H. apply runs_co_bind_inv in H as [(tr1 & h & tr2 & H1 & H2 & ->)|(e & H1 & ->)].
  - apply runs_co_call_r_inv in H1 as ->. apply runs_Ret_inv in H2 as [-> ->].
    now exists (Normal h).
  - apply runs_co_call_r_inv in H1 as ->. now exists (Raised e).
Qed.

Section ContextFacts.

Variable wire_type_of : Message -> Z.
Variable count_message : Message -> Z.

Lemma runs_write (ctx : Context) (msg : Message) :
  runs (write wire_type_of count_message ctx msg)
       (write_trace wire_type_of count_message ctx msg) (Normal tt).
Proof. unfold write_trace. run. Qed.

Lemma runs_read_unexpected (ctx : Context) (types : list Z) (mtype size : Z) :
  mtype ∉ types ->
  runs (read ctx types) (header_trace ctx mtype size)
       (Raised (UnexpectedMessageError
                  {| reader_iface := iface ctx; reader_type := mtype;
                     reader_size := size |})).
Proof.
  intros Hnot. unfold read, header_trace.
  rewrite <- (app_nil_r [_]).
  eapply runs_co_bind; [apply (runs_aopen (getreader ctx) (Normal (mtype, size)))|].
  cbn. rewrite bool_decide_eq_false_2 by assumption. apply runs_co_raise.
Qed.

Lemma runs_read_expected (ctx : Context) (types : list Z) (mtype size : Z)
    (pbtype : MsgClass) (o : result Message) :
  mtype ∈ types ->
  let reader := {| reader_iface := iface ctx; reader_type := mtype;
                   reader_size := size |} in
  runs (read ctx types)
       (header_trace ctx mtype size ++
        [Ev (GetType mtype) (Normal pbtype); Ev (LoadMessage reader pbtype) o]) o.
Proof.
  intros Hin reader. unfold read, header_trace.
  eapply runs_co_bind; [apply (runs_aopen (getreader ctx) (Normal (mtype, size)))|].
  cbn. rewrite bool_decide_eq_true_2 by assumption. cbn. run.
Qed.

(** Every run of [read]: the header fails to open; or its tag is not
    expected and nothing more is done; or the class is looked up and the
    message decoded. *)
Lemma runs_read_inv (ctx : Context) (types : list Z) tr o :
  runs (read ctx types) tr o ->
  (exists e, tr = [Ev (AOpen (getreader ctx)) (Raised e)] /\ o = Raised e)
  \/ (exists mtype size,
        (mtype ∉ types) /\ tr = header_trace ctx mtype size /\
        o = Raised (UnexpectedMessageError
                      {| reader_iface := iface ctx; reader_type := mtype;
                         reader_size := size |}))
  \/ (exists mtype size e,
        (mtype ∈ types) /\
        tr = header_trace ctx mtype size ++ [Ev (GetType mtype) (Raised e)] /\
        o = Raised e)
  \/ (exists mtype size pbtype,
        (mtype ∈ types) /\
        tr = header_trace ctx mtype size ++
             [Ev (GetType mtype) (Normal pbtype);
              Ev (LoadMessage {| reader_iface := iface ctx; reader_type := mtype;
                                 reader_size := size |} pbtype) o]).
Proof.
  intros H. unfold read in H.
  apply runs_co_bind_inv in H as [(tr1 & r & tr2 & H1 & H2 & ->)|(e & H1 & ->)];
    apply runs_aopen_inv in H1 as ([[mtype size]|e'] & -> & Ho); try discriminate.
  - injection Ho as ->. cbn in H2.
    destruct (bool_decide (mtype ∈ types)) eqn:Hdec; cbn in H2.
    + apply bool_decide_eq_true_1 in Hdec.
      apply runs_co_bind_inv in H2 as [(tr3 & pb & tr4 & H3 & H4 & ->)|(e & H3 & ->)].
      * apply runs_co_call_r_inv in H3 as ->. apply runs_co_call_r_inv in H4 as ->.
        right; right; right. now exists mtype, size, pb.
      * apply runs_co_call_r_inv in H3 as ->.
        right; right; left. now exists mtype, size, e.
    + apply bool_decide_eq_false_1 in Hdec. apply runs_Ret_inv in H2 as [-> ->].
      right; left. now exists mtype, size.
  - injection Ho as ->. left. now exists e'.
Qed.

Lemma header_trace_inj (ctx : Context) mtype size tr mtype' size' tr' :
  header_trace ctx mtype size ++ tr = header_trace ctx mtype' size' ++ tr' ->
  mtype = mtype' /\ size = size' /\ tr = tr'.
Proof.
  unfold header_trace. cbn. intros H.
  assert (Htl : tr = tr') by exact (f_equal (@tl event) H).
  assert (Hhd : Ev (AOpen (getreader ctx)) (Normal (mtype, size))
                = Ev (AOpen (getreader ctx)) (Normal (mtype', size')))
    by exact (f_equal (hd (Ev OnStart tt)) H).
  apply Ev_inj in Hhd. injection Hhd as -> ->. auto.
Qed.

(** C3.  [read] opens a reader first.  When the tag of the frame is not one
    of [types], it raises [UnexpectedMessageError] with that open reader, and
    no run goes on after the header: no class is looked up and nothing is
    decoded.  When the tag is one of [types], the class of the tag is looked
    up, the message is decoded from the reader, and what the decoder gives
    is the result. *)
Theorem read_raises_reader_or_decodes (ctx : Context) (types : list Z)
    (mtype size : Z) (pbtype : MsgClass) (msg : Message) :
  let reader := {| reader_iface := iface ctx; reader_type := mtype;
                   reader_size := size |} in
  (mtype ∉ types ->
     runs (read ctx types) (header_trace ctx mtype size)
          (Raised (UnexpectedMessageError reader))
     /\ forall tr o, runs (read ctx types) (header_trace ctx mtype size ++ tr) o ->
                     tr = [] /\ o = Raised (UnexpectedMessageError reader))
  /\ (mtype ∈ types ->
       runs (read ctx types)
            (header_trace ctx mtype size ++
             [Ev (GetType mtype) (Normal pbtype);
              Ev (LoadMessage reader pbtype) (Normal msg)])
            (Normal msg)).
Proof.
  intros reader. split.
  - intros Hnot. split; [now apply runs_read_unexpected|].
    intros tr o H. apply runs_read_inv in H
      as [(e & H & _)|[(m & s & _ & H & ->)|[(m & s & e & Hin & H & _)
                                            |(m & s & pb & Hin & H)]]].
    + discriminate (f_equal (fun l => match l with
                                      | Ev (AOpen _) (Raised _) :: _ => true
                                      | _ => false
                                      end) H).
    + rewrite <- (app_nil_r (header_trace ctx m s)) in H.
      apply header_trace_inj in H as (-> & -> & ->). auto.
    + apply header_trace_inj in H as (-> & _). contradiction.
    + apply header_trace_inj in H as (-> & _). contradiction.
  - intros Hin. now apply runs_read_expected.
Qed.

Lemma read_raises_reader_or_decodes_witness :
  let ctx := mkContext 0 0 in
  runs (read ctx [27]) (header_trace ctx 4 10)
       (Raised (UnexpectedMessageError (mkReader 0 4 10)))
  /\ runs (read ctx [27])
          (header_trace ctx 27 0 ++
           [Ev (GetType 27) (Normal (mkMsgClass "ButtonAck" 27));
            Ev (LoadMessage (mkReader 0 27 0) (mkMsgClass "ButtonAck" 27))
               (Normal ButtonAck)])
          (Normal ButtonAck).
Proof.
  intros ctx. split.
  - apply (@read_raises_reader_or_decodes ctx [27] 4 10
             (mkMsgClass "ButtonAck" 27) ButtonAck).
    rewrite list_elem_of_singleton. lia.
  - apply (@read_raises_reader_or_decodes ctx [27] 27 0
             (mkMsgClass "ButtonAck" 27) ButtonAck).
    apply list_elem_of_singleton. reflexivity.
Defined.

End ContextFacts.

(* ===================================================================== *)
(** * The dispatch adapters *)
(* ===================================================================== *)

Section AdapterFacts.

Variable wire_type_of : Message -> Z.
Variable count_message : Message -> Z.

Local Abbreviation write_trace := (write_trace wire_type_of count_message).
Local Abbreviation write := (write wire_type_of count_message).
Local Abbreviation write_value := (write_value wire_type_of count_message).

(** The adapter up to the point where the inner handler has finished with
    [o]: the request has been decoded, and what remains is the adapter's
    reaction to [o]. *)
Lemma runs_protobuf_workflow (ctx : Context) (reader : Reader) (handler : Handler)
    (args : list pyval) pbtype req tr (o : result pyval) tr' o' :
  runs (handler ctx req args) tr o ->
  runs (match o with
        | Normal res =>
            if truthy res then
              (write_value ctx res;; Co.ret VNone)%co
            else Co.ret VNone
        | Raised (Error code message as exc) =>
            (write ctx (Failure code message);;
             Co.raise exc)%co
        | Raised (PyException _ as exc) =>
            (write ctx
               (Failure FailureType.FirmwareError "Firmware error");;
             Co.raise exc)%co
        | Raised exc => Co.raise exc
        end) tr' o' ->
  runs (protobuf_workflow wire_type_of count_message ctx reader handler args)
       (load_trace reader pbtype req ++ tr ++ tr') o'.
Proof.
  intros Hh Hk. unfold protobuf_workflow, load_trace.
  change [Ev (GetType (reader_type reader)) (Normal pbtype);
          Ev (LoadMessage reader pbtype) (Normal req)]
    with ([Ev (GetType (reader_type reader)) (Normal pbtype)] ++
          [Ev (LoadMessage reader pbtype) (Normal req)]).
  rewrite <- app_assoc.
  eapply runs_co_bind; [apply runs_co_call_r|].
  eapply runs_co_bind; [apply runs_co_call_r|].
  destruct o as [res|exc].
  - eapply runs_co_bind; [apply runs_try_except_normal, Hh|]. exact Hk.
  - assert (Hraised : exists e, o' = Raised e /\
              runs (match exc with
                    | Error code message =>
                        (write ctx (Failure code message);;
                         Co.raise exc)%co
                    | PyException _ =>
                        (write ctx
                           (Failure FailureType.FirmwareError "Firmware error");;
                         Co.raise exc)%co
                    | _ => Co.raise exc
                    end : Co.t pyval) tr' (Raised e)).
    { destruct exc.
      - apply runs_Ret_inv in Hk as [-> ->]. eexists; split; [reflexivity|].
        apply runs_co_raise.
      - apply runs_co_bind_inv in Hk as [(t1 & [] & t2 & H1 & H2 & ->)|(e & H1 & ->)].
        + pose proof H2 as H2'. apply runs_Ret_inv in H2' as [-> ->].
          eexists; split; [reflexivity|]. eapply runs_co_bind; [exact H1|exact H2].
        + eexists; split; [reflexivity|]. now apply runs_co_bind_raised.
      - apply runs_co_bind_inv in Hk as [(t1 & [] & t2 & H1 & H2 & ->)|(e & H1 & ->)].
        + pose proof H2 as H2'. apply runs_Ret_inv in H2' as [-> ->].
          eexists; split; [reflexivity|]. eapply runs_co_bind; [exact H1|exact H2].
        + eexists; split; [reflexivity|]. now apply runs_co_bind_raised.
      - apply runs_Ret_inv in Hk as [-> ->]. eexists; split; [reflexivity|].
        apply runs_co_raise. }
    destruct Hraised as (e & -> & Hk').
    apply runs_co_bind_raised. eapply runs_try_except_raised; [exact Hh|].
    destruct exc; exact Hk'.
Qed.

(** C4.  When the inner handler raises, [protobuf_workflow] raises the same
    exception again, after these writes and no others: for a domain failure
    [Error code message], one [Failure] reply with that code and that
    message; for any other instance of [Exception], one [Failure] reply with
    the [FirmwareError] code; for [UnexpectedMessageError], nothing: the
    adapter makes no call after the handler. *)
Theorem protobuf_workflow_replies_then_reraises (ctx : Context) (reader : Reader)
    (handler : Handler) (args : list pyval) (pbtype : MsgClass) (req : Message)
    (tr : trace) (exc : exn) :
  runs (handler ctx req args) tr (Raised exc) ->
  (forall code message, exc = Error code message ->
     runs (protobuf_workflow wire_type_of count_message ctx reader handler args)
          (load_trace reader pbtype req ++ tr ++ write_trace ctx (Failure code message))
          (Raised exc))
  /\ (forall name, exc = PyException name ->
        runs (protobuf_workflow wire_type_of count_message ctx reader handler args)
             (load_trace reader pbtype req ++ tr ++
              write_trace ctx (Failure FailureType.FirmwareError "Firmware error"))
             (Raised exc))
  /\ (forall unexpected, exc = UnexpectedMessageError unexpected ->
        runs (protobuf_workflow wire_type_of count_message ctx reader handler args)
             (load_trace reader pbtype req ++ tr) (Raised exc)
        /\ forall more o,
             runs (protobuf_workflow wire_type_of count_message ctx reader handler args)
                  ((load_trace reader pbtype req ++ tr) ++ more) o ->
             more = []).
Proof.
  intros Hh. split; [|split].
  - intros code message ->. eapply runs_protobuf_workflow; [exact Hh|]. cbn.
    rewrite <- (app_nil_r (write_trace _ _)).
    eapply runs_co_bind; [apply runs_write|apply runs_co_raise].
  - intros name ->. eapply runs_protobuf_workflow; [exact Hh|]. cbn.
    rewrite <- (app_nil_r (write_trace _ _)).
    eapply runs_co_bind; [apply runs_write|apply runs_co_raise].
  - intros unexpected ->.
    assert (Hrun : runs (protobuf_workflow wire_type_of count_message ctx reader
                           handler args)
                     (load_trace reader pbtype req ++ tr)
                     (Raised (UnexpectedMessageError unexpected))).
    { rewrite <- (app_nil_r tr).
      eapply runs_protobuf_workflow; [exact Hh|]. apply runs_co_raise. }
    split; [exact Hrun|].
    intros more o H. now destruct (runs_prefix Hrun H).
Qed.

(** C9.  When the inner handler returns a falsy value, [protobuf_workflow]
    ends normally and has written nothing: its calls are the decoding of the
    request and the calls of the handler, and no run goes on after them. *)
Theorem protobuf_workflow_falsy_result_writes_nothing (ctx : Context)
    (reader : Reader) (handler : Handler) (args : list pyval) (pbtype : MsgClass)
    (req : Message) (tr : trace) (res : pyval) :
  runs (handler ctx req args) tr (Normal res) ->
  truthy res = false ->
  runs (protobuf_workflow wire_type_of count_message ctx reader handler args)
       (load_trace reader pbtype req ++ tr) (Normal VNone)
  /\ forall more o,
       runs (protobuf_workflow wire_type_of count_message ctx reader handler args)
            ((load_trace reader pbtype req ++ tr) ++ more) o ->
       more = [] /\ o = Normal VNone.
Proof.
  intros Hh Hfalsy.
  assert (Hrun : runs (protobuf_workflow wire_type_of count_message ctx reader
                         handler args)
                   (load_trace reader pbtype req ++ tr) (Normal VNone)).
  { rewrite <- (app_nil_r tr).
    eapply runs_protobuf_workflow; [exact Hh|]. cbn. rewrite Hfalsy.
    apply runs_co_ret. }
  split; [exact Hrun|].
  intros more o H. destruct (runs_prefix Hrun H). auto.
Qed.

End AdapterFacts.

Lemma protobuf_workflow_replies_then_reraises_witness :
  let ctx := mkContext 0 0 in
  let reader := mkReader 0 4 2 in
  let handler : Handler := fun _ _ _ => Co.raise (PinInvalid "PIN invalid") in
  let cls := mkMsgClass "ChangePin" 4 in
  let req := ChangePinMessage (mkChangePin false) in
  runs (protobuf_workflow (fun _ => 3) (fun _ => 13) ctx reader handler [])
       (load_trace reader cls req ++ [] ++
        write_trace (fun _ => 3) (fun _ => 13) ctx
          (Failure FailureType.PinInvalid "PIN invalid"))
       (Raised (PinInvalid "PIN invalid")).
Proof.
  intros ctx reader handler cls req.
  refine (proj1 (@protobuf_workflow_replies_then_reraises (fun _ => 3) (fun _ => 13)
                   ctx reader handler [] cls req [] (PinInvalid "PIN invalid") _)
                FailureType.PinInvalid "PIN invalid" eq_refl).
  apply runs_co_raise.
Defined.

Lemma protobuf_workflow_falsy_result_writes_nothing_witness :
  let ctx := mkContext 0 0 in
  let reader := mkReader 0 4 2 in
  let handler : Handler := fun _ _ _ => Co.ret VNone in
  let cls := mkMsgClass "ChangePin" 4 in
  let req := ChangePinMessage (mkChangePin false) in
  runs (protobuf_workflow (fun _ => 3) (fun _ => 13) ctx reader handler [])
       (load_trace reader cls req ++ []) (Normal VNone).
Proof.
  intros ctx reader handler cls req.
  apply (@protobuf_workflow_falsy_result_writes_nothing (fun _ => 3) (fun _ => 13)
           ctx reader handler [] cls req [] VNone).
  - apply runs_co_ret.
  - reflexivity.
Defined.

Lemma releases_app (k : Keychain) (tr1 tr2 : trace) :
  releases k (tr1 ++ tr2) = (releases k tr1 + releases k tr2)%nat.
Proof.
  induction tr1 as [|[X e x] tr1 IH]; cbn; [reflexivity|]. rewrite IH. lia.
Qed.

(** C5.  Once [get_keychain] has given a keychain, every run of
    [keychain_workflow] is the run of the inner handler, called with the
    keychain appended to its arguments, followed by one release of that
    keychain, and it ends as the handler ended, whether by a value or by any
    exception; so the adapter releases the keychain exactly once, after the
    handler and before it returns. *)
Theorem keychain_workflow_releases_once (ctx : Context) (req : Message)
    (namespace : list pyval) (handler : Handler) (args : list pyval)
    (keychain : Keychain) (tr : trace) (o : result pyval) :
  runs (handler ctx req (args ++ [VKeychain keychain])) tr o ->
  let acquired := Ev (GetKeychain ctx namespace) (Normal keychain) in
  runs (keychain_workflow ctx req namespace handler args)
       (acquired :: tr ++ [Ev (KeychainDel keychain) tt]) o
  /\ releases keychain (acquired :: tr ++ [Ev (KeychainDel keychain) tt])
     = S (releases keychain tr)
  /\ (forall tr' o',
        runs (keychain_workflow ctx req namespace handler args) (acquired :: tr') o' ->
        exists tr0,
          runs (handler ctx req (args ++ [VKeychain keychain])) tr0 o' /\
          tr' = tr0 ++ [Ev (KeychainDel keychain) tt]).
Proof.
  intros Hh acquired. repeat split.
  - unfold keychain_workflow.
    change (acquired :: tr ++ [Ev (KeychainDel keychain) tt])
      with ([acquired] ++ tr ++ [Ev (KeychainDel keychain) tt]).
    eapply runs_co_bind; [apply runs_co_call_r|].
    apply runs_try_finally; [exact Hh|apply runs_co_call].
  - cbn. rewrite releases_app. cbn. rewrite Z.eqb_refl. lia.
  - intros tr' o' H. unfold keychain_workflow in H.
    apply runs_co_bind_inv in H as [(tr1 & k & tr2 & H1 & H2 & Heq)|(e & H1 & _)].
    + apply runs_co_call_r_inv in H1 as ->.
      assert (Htl : tr' = tr2) by exact (f_equal (@tl event) Heq).
      assert (Hhd : acquired = Ev (GetKeychain ctx namespace) (Normal k))
        by exact (f_equal (hd acquired) Heq).
      apply Ev_inj in Hhd. injection Hhd as <-. subst tr2.
      apply runs_try_finally_inv in H2 as (tr3 & o1 & tr4 & o2 & H3 & H4 & -> & ->).
      apply runs_co_call_inv in H4 as ([] & -> & ->).
      now exists tr3.
    + apply runs_co_call_r_inv in H1.
      assert (Hhd : acquired = Ev (GetKeychain ctx namespace) (Raised e))
        by exact (f_equal (hd acquired) H1).
      apply Ev_inj in Hhd. discriminate.
Qed.

Lemma keychain_workflow_releases_once_witness :
  let ctx := mkContext 0 0 in
  let req := OtherMessage 30 "" in
  let handler : Handler := fun _ _ _ => Co.raise (PyException "ValueError") in
  runs (keychain_workflow ctx req [VStr "secp256k1"] handler [])
       (Ev (GetKeychain ctx [VStr "secp256k1"]) (Normal 5)
          :: [] ++ [Ev (KeychainDel 5) tt])
       (Raised (PyException "ValueError")).
Proof.
  intros ctx req handler.
  apply (@keychain_workflow_releases_once ctx req [VStr "secp256k1"] handler [] 5 []
           (Raised (PyException "ValueError"))).
  apply runs_co_raise.
Defined.

(* ===================================================================== *)
(** * The session handler *)
(* ===================================================================== *)

Section SessionFacts.

Variable wire_type_of : Message -> Z.
Variable count_message : Message -> Z.

Local Abbreviation write_trace := (write_trace wire_type_of count_message).
Local Abbreviation find_handler := (find_handler wire_type_of count_message).
Local Abbreviation session_iteration := (session_iteration wire_type_of count_message).
Local Abbreviation session_loop := (session_loop wire_type_of count_message).
Local Abbreviation session_handler := (session_handler wire_type_of count_message).
Local Abbreviation unexpected_msg := (unexpected_msg wire_type_of count_message).

(** ** The generic workflow for unregistered tags *)

Lemma chunked_sum (chunks : list Z) (size : Z) :
  chunked size chunks -> foldr Z.add 0 chunks = size.
Proof.
  revert size. induction chunks as [|n chunks IH]; cbn; intros size H.
  - congruence.
  - destruct H as (_ & _ & H). rewrite (IH _ H). lia.
Qed.

Lemma bytes_read_app (tr1 tr2 : trace) :
  bytes_read (tr1 ++ tr2) = bytes_read tr1 + bytes_read tr2.
Proof.
  induction tr1 as [|[X e x] tr1 IH]; cbn; [reflexivity|]. rewrite IH. lia.
Qed.

Lemma bytes_read_drain (chunks : list Z) (reader : Reader) :
  bytes_read (drain_trace reader chunks) = foldr Z.add 0 chunks.
Proof.
  revert reader. induction chunks as [|n chunks IH]; cbn; intros reader;
    [reflexivity|]. now rewrite IH.
Qed.

Lemma runs_unexpected_msg (ctx : Context) (chunks : list Z) (reader : Reader) :
  chunked (reader_size reader) chunks ->
  runs (unexpected_msg ctx reader)
       (drain_trace reader chunks ++
        write_trace ctx (Failure FailureType.UnexpectedMessage "Unexpected message"))
       (Normal VNone).
Proof.
  intros Hchunks. unfold unexpected_msg.
  eapply runs_co_bind with (a := tt).
  - revert reader Hchunks. induction chunks as [|n chunks IH]; intros reader H; cbn in H.
    + apply runs_while_exit. rewrite H. cbn. apply runs_co_ret.
    + destruct H as (Hpos & Hn & H). cbn [drain_trace].
      change (?ev :: ?tr) with ([ev] ++ tr).
      eapply runs_while_continue; [|apply IH; exact H].
      apply Z.ltb_lt in Hpos. rewrite Hpos. unfold areadinto. run.
  - rewrite <- (app_nil_r (write_trace _ _)).
    eapply runs_co_bind; [apply runs_write|apply runs_co_ret].
Qed.

(** ** One turn of the loop *)

Lemma runs_workflow_turn (w : Co.t pyval) (m : Z) tr o :
  runs w tr o ->
  runs (Co.try_except
          (m <- Co.call UnimportBegin;;
           Co.try_finally (Co.call OnStart;; w)
             (Co.call OnClose;; Co.call (UnimportEnd m));;
           Co.ret None)%co
          (fun exc =>
             match exc with
             | UnexpectedMessageError reader => Co.ret (Some reader)
             | Error _ _ => Co.ret None
             | PyException _ => Co.ret None
             | PyBaseException _ => Co.raise exc
             end))
       (workflow_trace m tr) (turn_result o).
Proof.
  intros Hw.
  assert (Hbody : runs (m <- Co.call UnimportBegin;;
                        Co.try_finally (Co.call OnStart;; w)
                          (Co.call OnClose;; Co.call (UnimportEnd m));;
                        Co.ret None)%co
                    (workflow_trace m tr)
                    (match o with
                     | Normal _ => Normal (None : option Reader)
                     | Raised e => Raised e
                     end)).
  { unfold workflow_trace.
    change [Ev UnimportBegin m; Ev OnStart tt] with ([Ev UnimportBegin m] ++ [Ev OnStart tt]).
    rewrite <- app_assoc.
    eapply runs_co_bind; [apply runs_co_call|].
    assert (Hfin : runs (Co.try_finally (Co.call OnStart;; w)
                           (Co.call OnClose;; Co.call (UnimportEnd m)))%co
                     ([Ev OnStart tt] ++ tr ++ [Ev OnClose tt; Ev (UnimportEnd m) tt]) o).
    { rewrite app_assoc. apply runs_try_finally.
      - eapply runs_co_bind; [apply runs_co_call|exact Hw].
      - run. }
    destruct o as [v|e].
    - rewrite <- (app_nil_r (_ ++ _ ++ _)).
      eapply runs_co_bind; [exact Hfin|apply runs_co_ret].
    - apply runs_co_bind_raised. exact Hfin. }
  destruct o as [v|e].
  - apply runs_try_except_normal. exact Hbody.
  - rewrite <- (app_nil_r (workflow_trace _ _)).
    eapply runs_try_except_raised; [exact Hbody|].
    destruct e; cbn; apply runs_Ret.
Qed.

Lemma runs_workflow_turn_inv (w : Co.t pyval) tr' o' :
  runs (Co.try_except
          (m <- Co.call UnimportBegin;;
           Co.try_finally (Co.call OnStart;; w)
             (Co.call OnClose;; Co.call (UnimportEnd m));;
           Co.ret None)%co
          (fun exc =>
             match exc with
             | UnexpectedMessageError reader => Co.ret (Some reader)
             | Error _ _ => Co.ret None
             | PyException _ => Co.ret None
             | PyBaseException _ => Co.raise exc
             end)) tr' o' ->
  exists m tr o, runs w tr o /\ tr' = workflow_trace m tr /\ o' = turn_result o.
Proof.
  intros H.
  assert (Hbody : forall tr1 (o1 : result (option Reader)),
            runs (m <- Co.call UnimportBegin;;
                  Co.try_finally (Co.call OnStart;; w)
                    (Co.call OnClose;; Co.call (UnimportEnd m));;
                  Co.ret None)%co tr1 o1 ->
            exists m tr o, runs w tr o /\ tr1 = workflow_trace m tr /\
                           o1 = match o with
                                | Normal _ => Normal None
                                | Raised e => Raised e
                                end).
  { intros tr1 o1 H1.
    apply runs_co_bind_inv in H1 as [(t1 & m & t2 & Hm & H1 & ->)|(e & Hm & _)];
      apply runs_co_call_inv in Hm as (m' & -> & Hm); [|discriminate].
    injection Hm as <-. exists m.
    assert (Hfin : forall t o, runs (Co.try_finally (Co.call OnStart;; w)
                                  (Co.call OnClose;; Co.call (UnimportEnd m)))%co t o ->
              exists tr, runs w tr o /\
                         t = [Ev OnStart tt] ++ tr ++ [Ev OnClose tt; Ev (UnimportEnd m) tt]).
    { intros t o Ht.
      apply runs_try_finally_inv in Ht as (t3 & o3 & t4 & o4 & H3 & H4 & -> & ->).
      apply runs_co_bind_inv in H4 as [(t5 & [] & t6 & H5 & H6 & ->)|(e & H5 & _)];
        apply runs_co_call_inv in H5 as ([] & -> & H5); [|discriminate].
      apply runs_co_call_inv in H6 as ([] & -> & ->).
      apply runs_co_bind_inv in H3 as [(t7 & [] & t8 & H7 & H8 & ->)|(e & H7 & _)];
        apply runs_co_call_inv in H7 as ([] & -> & H7); [|discriminate].
      exists t8. split; [exact H8|]. now rewrite <- app_assoc. }
    apply runs_co_bind_inv in H1 as [(t3 & v & t4 & H3 & H4 & ->)|(e & H3 & ->)].
    - apply Hfin in H3 as (tr & Hw & ->). apply runs_Ret_inv in H4 as [-> ->].
      exists tr, (Normal v). rewrite app_nil_r. auto.
    - apply Hfin in H3 as (tr & Hw & ->). exists tr, (Raised e). auto. }
  apply runs_try_except_inv in H as [(a & H & ->)|(t1 & e & t2 & H & Hh & ->)];
    apply Hbody in H as (m & tr & o & Hw & -> & Ho); exists m, tr, o.
  - destruct o; [|discriminate]. injection Ho as ->. auto.
  - destruct o; [discriminate|]. injection Ho as <-.
    destruct e; apply runs_Ret_inv in Hh as [-> ->]; rewrite app_nil_r; auto.
Qed.

(** A turn that starts with a reader carried over: the workflow found for
    the tag of that reader runs on that reader, and the session loop makes no
    other call than its housekeeping around it. *)
Lemma runs_session_iteration_carried (workflow_handlers : registry) (ctx : Context)
    (reader : Reader) (handler : Workflow) (args : list pyval) (m : Z) tr o :
  find_handler workflow_handlers reader = (handler, args) ->
  runs (handler ctx reader args) tr o ->
  runs (session_iteration workflow_handlers ctx (Some reader))
       (workflow_trace m tr) (turn_result o).
Proof.
  intros Hfind Hw. unfold session_iteration.
  change (workflow_trace m tr) with ([] ++ workflow_trace m tr).
  eapply runs_try_except_bind; [apply runs_co_ret|].
  rewrite Hfind. now apply runs_workflow_turn.
Qed.

Lemma runs_session_iteration_carried_inv (workflow_handlers : registry)
    (ctx : Context) (reader : Reader) tr' o' :
  runs (session_iteration workflow_handlers ctx (Some reader)) tr' o' ->
  exists m tr o,
    runs ((find_handler workflow_handlers reader).1 ctx reader
            (find_handler workflow_handlers reader).2) tr o /\
    tr' = workflow_trace m tr /\ o' = turn_result o.
Proof.
  intros H. unfold session_iteration in H.
  apply runs_try_except_bind_inv in H
    as [(t1 & r & t2 & Hr & H & ->)|(t1 & e & t2 & Hr & _ & _)];
    apply runs_Ret_inv in Hr as [-> Hr]; [|discriminate].
  injection Hr as Hr. subst r.
  destruct (find_handler workflow_handlers reader) as [handler args].
  now apply runs_workflow_turn_inv in H.
Qed.

(** A turn that starts without a reader: a header is awaited on a fresh
    reader, and the workflow found for its tag runs on that reader. *)
Lemma runs_session_iteration_fresh (workflow_handlers : registry) (ctx : Context)
    (mtype size : Z) (handler : Workflow) (args : list pyval) (m : Z) tr o :
  let reader := {| reader_iface := iface ctx; reader_type := mtype;
                   reader_size := size |} in
  find_handler workflow_handlers reader = (handler, args) ->
  runs (handler ctx reader args) tr o ->
  runs (session_iteration workflow_handlers ctx None)
       (header_trace ctx mtype size ++ workflow_trace m tr) (turn_result o).
Proof.
  intros reader Hfind Hw. unfold session_iteration.
  eapply runs_try_except_bind;
    [apply (runs_aopen (getreader ctx) (Normal (mtype, size)))|].
  cbn. subst reader. rewrite Hfind. now apply runs_workflow_turn.
Qed.

Lemma runs_session_iteration_fresh_inv (workflow_handlers : registry)
    (ctx : Context) tr' o' :
  runs (session_iteration workflow_handlers ctx None) tr' o' ->
  (exists e, tr' = [Ev (AOpen (getreader ctx)) (Raised e)] /\
             o' = turn_result (Raised e))
  \/ (exists mtype size m tr o,
        let reader := {| reader_iface := iface ctx; reader_type := mtype;
                         reader_size := size |} in
        runs ((find_handler workflow_handlers reader).1 ctx reader
                (find_handler workflow_handlers reader).2) tr o /\
        tr' = header_trace ctx mtype size ++ workflow_trace m tr /\
        o' = turn_result o).
Proof.
  intros H. unfold session_iteration in H.
  apply runs_try_except_bind_inv in H
    as [(t1 & r & t2 & Hr & H & ->)|(t1 & e & t2 & Hr & Hh & ->)];
    apply runs_aopen_inv in Hr as ([[mtype size]|e'] & -> & Hr); try discriminate.
  - injection Hr as ->. right. exists mtype, size. cbn in H |- *.
    destruct (find_handler workflow_handlers _) as [handler args].
    apply runs_workflow_turn_inv in H as (m & tr & o & Hw & -> & ->).
    now exists m, tr, o.
  - injection Hr as ->. left. exists e'.
    destruct e'; apply runs_Ret_inv in Hh as [-> ->]; auto.
Qed.

Lemma runs_session_turn (workflow_handlers : registry) (ctx : Context)
    (start : option Reader) (reader : Reader) (tr_in : trace)
    (handler : Workflow) (args : list pyval) (m : Z) tr o :
  turn_entry ctx start reader tr_in ->
  find_handler workflow_handlers reader = (handler, args) ->
  runs (handler ctx reader args) tr o ->
  runs (session_iteration workflow_handlers ctx start)
       (tr_in ++ workflow_trace m tr) (turn_result o).
Proof.
  intros [(-> & ->)|(-> & Hif & ->)] Hfind Hw.
  - now apply runs_session_iteration_carried with (handler := handler) (args := args).
  - destruct reader as [i mtype size]. cbn in Hif. subst i.
    now apply runs_session_iteration_fresh with (handler := handler) (args := args).
Qed.

(** A turn that ends without an exception brings the loop to its next turn,
    with the reader that the turn hands over. *)
Lemma steps_session_loop (workflow_handlers : registry) (ctx : Context)
    (start next : option Reader) tr :
  runs (session_iteration workflow_handlers ctx start) tr (Normal next) ->
  steps (session_loop workflow_handlers ctx start) tr
        (session_loop workflow_handlers ctx next).
Proof.
  intros H. unfold session_loop. apply steps_while.
  rewrite <- (app_nil_r tr). eapply runs_co_bind; [exact H|apply runs_co_ret].
Qed.

Lemma turn_result_raised (o : result pyval) (e : exn) :
  turn_result o = Raised e -> exists name, e = PyBaseException name.
Proof.
  destruct o as [v|[r|code message|name|name]]; cbn; intros H;
    try discriminate. injection H as <-. now exists name.
Qed.

(** The loop has no way out but an exception that no clause of a turn
    catches, and these are the exceptions outside [Exception]. *)
Lemma session_loop_exit (workflow_handlers : registry) (ctx : Context)
    (start : option Reader) tr (o : result Empty_set) :
  runs (session_loop workflow_handlers ctx start) tr o ->
  exists name, o = Raised (PyBaseException name).
Proof.
  unfold session_loop.
  apply (runs_while_inv (Inv := fun _ => True)
           (Q := fun o => exists name, o = Raised (PyBaseException name)));
    [|exact I].
  clear start tr o. intros start tr o _ H.
  apply runs_co_bind_inv in H as [(t1 & next & t2 & _ & H & _)|(e & H & ->)].
  - apply runs_Ret_inv in H as [_ ->]. exact I.
  - assert (Ht : exists o', Raised e = turn_result o').
    { destruct start as [reader|].
      - apply runs_session_iteration_carried_inv in H as (m & t & o' & _ & _ & H).
        now exists o'.
      - apply runs_session_iteration_fresh_inv in H
          as [(e' & _ & H)|(mtype & size & m & t & o' & _ & _ & H)]; eauto. }
    destruct Ht as (o' & Ht). symmetry in Ht.
    apply turn_result_raised in Ht as (name & ->). now exists name.
Qed.

(** C7.  A frame whose tag has no entry in the table is given to
    [unexpected_msg].  Whatever the chunks in which the codec delivers the
    payload, [unexpected_msg] reads the whole declared length off the reader,
    keeps none of it, then writes one [Failure] reply with the code
    [UnexpectedMessage] and the message "Unexpected message"; the turn of
    the session loop ends normally. *)
Theorem unregistered_tag_is_drained_and_rejected (workflow_handlers : registry)
    (ctx : Context) (start : option Reader) (reader : Reader) (tr_in : trace)
    (chunks : list Z) (m : Z) :
  workflow_handlers !! reader_type reader = None ->
  chunked (reader_size reader) chunks ->
  turn_entry ctx start reader tr_in ->
  let reply := Failure FailureType.UnexpectedMessage "Unexpected message" in
  find_handler workflow_handlers reader
  = (fun ctx reader _ => unexpected_msg ctx reader, [])
  /\ runs (unexpected_msg ctx reader)
          (drain_trace reader chunks ++ write_trace ctx reply) (Normal VNone)
  /\ bytes_read (drain_trace reader chunks) = reader_size reader
  /\ runs (session_iteration workflow_handlers ctx start)
          (tr_in ++ workflow_trace m (drain_trace reader chunks ++ write_trace ctx reply))
          (Normal None).
Proof.
  intros Hnone Hchunks Hentry reply.
  assert (Hfind : find_handler workflow_handlers reader
                  = (fun ctx reader _ => unexpected_msg ctx reader, [])).
  { unfold find_handler. now rewrite Hnone. }
  assert (Hrun := runs_unexpected_msg ctx Hchunks).
  repeat split.
  - exact Hfind.
  - exact Hrun.
  - rewrite bytes_read_drain. now apply chunked_sum.
  - exact (runs_session_turn m Hentry Hfind Hrun).
Qed.

(** C1.  When the workflow of a turn raises a fault (an [Error] or any other
    instance of [Exception] but the re-dispatch condition), the turn ends
    normally and hands no reader over; the loop is then the loop that starts
    with no reader, whose next call opens a header on a fresh reader.  The
    loop can only end by an exception outside [Exception]: no fault of a
    handler ends it. *)
Theorem session_handler_survives_faults (workflow_handlers : registry)
    (ctx : Context) (start : option Reader) (reader : Reader) (tr_in : trace)
    (handler : Workflow) (args : list pyval) (m : Z) (tr : trace) (exc : exn) :
  turn_entry ctx start reader tr_in ->
  find_handler workflow_handlers reader = (handler, args) ->
  runs (handler ctx reader args) tr (Raised exc) ->
  is_fault exc = true ->
  runs (session_iteration workflow_handlers ctx start)
       (tr_in ++ workflow_trace m tr) (Normal None)
  /\ steps (session_loop workflow_handlers ctx start)
           (tr_in ++ workflow_trace m tr)
           (session_loop workflow_handlers ctx None)
  /\ next_call (session_loop workflow_handlers ctx None) (AOpen (getreader ctx))
  /\ (forall iface sid tr' o',
        runs (session_handler workflow_handlers iface sid) tr' o' ->
        exists name, o' = Raised (PyBaseException name)).
Proof.
  intros Hentry Hfind Hw Hfault.
  assert (Hturn : runs (session_iteration workflow_handlers ctx start)
                    (tr_in ++ workflow_trace m tr) (Normal None)).
  { replace (Normal None) with (turn_result (Raised exc))
      by (destruct exc; cbn in *; congruence).
    exact (runs_session_turn m Hentry Hfind Hw). }
  repeat split.
  - exact Hturn.
  - now apply steps_session_loop.
  - unfold session_loop, Co.while, session_iteration. apply next_call_iter.
    find_next_call.
  - intros i s tr' o'. apply session_loop_exit.
Qed.

(** C2.  When the workflow of a turn raises [UnexpectedMessageError], the
    turn hands the reader of the exception over to the next turn.  The next
    turn opens no header: its first call is the start of the import scope,
    and each of its runs is a run of the workflow found for the tag of that
    reader, on that very reader, inside the housekeeping of the loop.  A
    [read] that expects no type raises the condition for any frame, with the
    reader it opened, and so does [wait] when that read finishes first. *)
Theorem unexpected_message_is_redispatched (workflow_handlers : registry)
    (ctx : Context) (start : option Reader) (reader : Reader) (tr_in : trace)
    (handler : Workflow) (args : list pyval) (m : Z) (tr : trace)
    (unexpected : Reader) :
  turn_entry ctx start reader tr_in ->
  find_handler workflow_handlers reader = (handler, args) ->
  runs (handler ctx reader args) tr (Raised (UnexpectedMessageError unexpected)) ->
  runs (session_iteration workflow_handlers ctx start)
       (tr_in ++ workflow_trace m tr) (Normal (Some unexpected))
  /\ steps (session_loop workflow_handlers ctx start)
           (tr_in ++ workflow_trace m tr)
           (session_loop workflow_handlers ctx (Some unexpected))
  /\ next_call (session_loop workflow_handlers ctx (Some unexpected)) UnimportBegin
  /\ (forall tr' o',
        runs (session_iteration workflow_handlers ctx (Some unexpected)) tr' o' ->
        exists m' tr'' o'',
          runs ((find_handler workflow_handlers unexpected).1 ctx unexpected
                  (find_handler workflow_handlers unexpected).2) tr'' o'' /\
          tr' = workflow_trace m' tr'' /\ o' = turn_result o'')
  /\ (forall mtype size,
        let opened := {| reader_iface := iface ctx; reader_type := mtype;
                         reader_size := size |} in
        runs (read ctx []) (header_trace ctx mtype size)
             (Raised (UnexpectedMessageError opened))
        /\ forall tasks,
             runs (wait ctx tasks)
                  (Ev (Spawn (S (length tasks))) 0%nat :: header_trace ctx mtype size)
                  (Raised (UnexpectedMessageError opened))).
Proof.
  intros Hentry Hfind Hw.
  assert (Hturn := runs_session_turn m Hentry Hfind Hw). cbn in Hturn.
  repeat split.
  - exact Hturn.
  - now apply steps_session_loop.
  - unfold session_loop, Co.while, session_iteration. apply next_call_iter.
    find_next_call.
    destruct (find_handler workflow_handlers unexpected) as [h a].
    find_next_call.
  - apply runs_session_iteration_carried_inv.
  - apply runs_read_unexpected. apply not_elem_of_nil.
  - intros tasks. unfold wait, spawn.
    change (?ev :: header_trace ctx mtype size)
      with ([ev] ++ header_trace ctx mtype size).
    eapply runs_co_bind; [apply runs_co_call|]. cbn.
    apply runs_co_bind_raised. apply runs_read_unexpected. apply not_elem_of_nil.
Qed.

End SessionFacts.

Lemma unregistered_tag_is_drained_and_rejected_witness :
  let ctx := mkContext 0 0 in
  let reader := mkReader 0 65535 3 in
  let reply := Failure FailureType.UnexpectedMessage "Unexpected message" in
  runs (session_iteration (fun _ => 3) (fun _ => 22) (∅ : registry) ctx None)
       (header_trace ctx 65535 3 ++
        workflow_trace 0 (drain_trace reader [2; 1] ++
                          write_trace (fun _ => 3) (fun _ => 22) ctx reply))
       (Normal None).
Proof.
  intros ctx reader reply.
  apply (@unregistered_tag_is_drained_and_rejected (fun _ => 3) (fun _ => 22)
           ∅ ctx None reader (header_trace ctx 65535 3) [2; 1] 0).
  - apply lookup_empty.
  - cbn. lia.
  - right. repeat split.
Defined.

Lemma session_handler_survives_faults_witness :
  let ctx := mkContext 0 0 in
  let reader := mkReader 0 4 0 in
  let handler : Workflow := fun _ _ _ => Co.raise (PinInvalid "PIN invalid") in
  let workflow_handlers : registry := <[4 := (handler, [])]> ∅ in
  steps (session_loop (fun _ => 3) (fun _ => 22) workflow_handlers ctx (Some reader))
        ([] ++ workflow_trace 0 [])
        (session_loop (fun _ => 3) (fun _ => 22) workflow_handlers ctx None).
Proof.
  intros ctx reader handler workflow_handlers.
  apply (@session_handler_survives_faults (fun _ => 3) (fun _ => 22)
           workflow_handlers ctx (Some reader) reader [] handler [] 0 []
           (PinInvalid "PIN invalid")).
  - left. split; reflexivity.
  - unfold find_handler, workflow_handlers. cbn [reader_type reader].
    now rewrite lookup_insert_eq.
  - apply runs_co_raise.
  - reflexivity.
Defined.

Lemma unexpected_message_is_redispatched_witness :
  let ctx := mkContext 0 0 in
  let reader := mkReader 0 4 0 in
  let unexpected := mkReader 0 55 8 in
  let handler : Workflow :=
    fun ctx _ _ => (m <- read ctx [];; Co.ret (VMsg m))%co in
  let workflow_handlers : registry := <[4 := (handler, [])]> ∅ in
  steps (session_loop (fun _ => 3) (fun _ => 22) workflow_handlers ctx (Some reader))
        ([] ++ workflow_trace 0 (header_trace ctx 55 8))
        (session_loop (fun _ => 3) (fun _ => 22) workflow_handlers ctx (Some unexpected)).
Proof.
  intros ctx reader unexpected handler workflow_handlers.
  apply (@unexpected_message_is_redispatched (fun _ => 3) (fun _ => 22)
           workflow_handlers ctx (Some reader) reader [] handler [] 0
           (header_trace ctx 55 8) unexpected).
  - left. split; reflexivity.
  - unfold find_handler, workflow_handlers. cbn [reader_type reader].
    now rewrite lookup_insert_eq.
  - apply runs_co_bind_raised. apply runs_read_unexpected. apply not_elem_of_nil.
Defined.

(* ===================================================================== *)
(** * The PIN change workflow *)
(* ===================================================================== *)

Section ChangePinFacts.

Variable wire_type_of : Message -> Z.
Variable count_message : Message -> Z.
Variable MessageType_ButtonAck : Z.
Variable pin_to_int : pyval -> result Z.

Local Abbreviation pin_prompt_trace :=
  (pin_prompt_trace wire_type_of count_message MessageType_ButtonAck).
Local Abbreviation pin_round_trace :=
  (pin_round_trace wire_type_of count_message MessageType_ButtonAck).
Local Abbreviation retries_trace :=
  (retries_trace wire_type_of count_message MessageType_ButtonAck).
Local Abbreviation request_pin_ack :=
  (request_pin_ack wire_type_of count_message MessageType_ButtonAck).
Local Abbreviation request_pin_confirm :=
  (request_pin_confirm wire_type_of count_message MessageType_ButtonAck).
Local Abbreviation change_pin :=
  (change_pin wire_type_of count_message MessageType_ButtonAck pin_to_int).

Lemma runs_request_pin_ack (ctx : Context) (args : list string) (e : pin_entry) :
  runs (request_pin_ack ctx args) (pin_prompt_trace ctx args e)
       (Normal (VStr (entered_pin e))).
Proof.
  unfold request_pin_ack, pin_prompt_trace.
  apply runs_try_except_normal.
  rewrite (app_assoc (header_trace _ _ _)), app_assoc.
  eapply runs_co_bind.
  - unfold call. eapply runs_co_bind; [apply runs_write|].
    apply runs_read_expected. apply list_elem_of_singleton. reflexivity.
  - unfold wait, spawn. run.
Qed.

Lemma runs_pin_mismatch : runs pin_mismatch mismatch_trace (Normal tt).
Proof. unfold pin_mismatch, mismatch_trace. run. Qed.

(** [request_pin_confirm] asks again after each round whose entries differ,
    and returns the entry of the first round whose entries are equal. *)
Lemma runs_request_pin_confirm (ctx : Context)
    (rounds : list (pin_entry * pin_entry)) (final : pin_entry * pin_entry) :
  Forall (fun round => entered_pin round.1 <> entered_pin round.2) rounds ->
  entered_pin final.1 = entered_pin final.2 ->
  runs (request_pin_confirm ctx [])
       (retries_trace ctx rounds ++ pin_round_trace ctx final)
       (Normal (VStr (entered_pin final.1))).
Proof.
  intros Hrounds Hfinal. unfold request_pin_confirm.
  assert (Hround : forall (round : pin_entry * pin_entry) (k : pyval -> pyval -> Co.t (unit + pyval)),
            forall tr o,
              runs (k (VStr (entered_pin round.1)) (VStr (entered_pin round.2))) tr o ->
              runs (pin1 <- request_pin_ack ctx ["Enter new PIN"];;
                    pin2 <- request_pin_ack ctx ["Re-enter new PIN"];;
                    k pin1 pin2)%co
                   (pin_round_trace ctx round ++ tr) o).
  { intros round k tr o Hk. unfold pin_round_trace. rewrite <- app_assoc.
    eapply runs_co_bind; [apply runs_request_pin_ack|].
    eapply runs_co_bind; [apply runs_request_pin_ack|exact Hk]. }
  induction Hrounds as [|round rounds Hne _ IH].
  - cbn [retries_trace List.map List.concat app]. apply runs_while_exit.
    rewrite <- (app_nil_r (pin_round_trace _ _)).
    apply (Hround final (fun pin1 pin2 =>
             if py_eq pin1 pin2 then Co.ret (inr pin1)
             else (pin_mismatch;; Co.ret (inl tt))%co)).
    unfold py_eq. rewrite bool_decide_eq_true_2 by congruence. apply runs_co_ret.
  - unfold retries_trace. cbn [List.map List.concat]. rewrite <- app_assoc.
    eapply runs_while_continue; [|exact IH].
    apply (Hround round (fun pin1 pin2 =>
             if py_eq pin1 pin2 then Co.ret (inr pin1)
             else (pin_mismatch;; Co.ret (inl tt))%co)).
    unfold py_eq. rewrite bool_decide_eq_false_2 by congruence.
    rewrite <- (app_nil_r mismatch_trace).
    eapply runs_co_bind; [apply runs_pin_mismatch|apply runs_co_ret].
Qed.

Lemma config_writes_app (tr1 tr2 : trace) :
  config_writes (tr1 ++ tr2) = (config_writes tr1 + config_writes tr2)%nat.
Proof.
  induction tr1 as [|[X e x] tr1 IH]; cbn; [reflexivity|]. rewrite IH. lia.
Qed.

Lemma config_writes_retries (ctx : Context) (rounds : list (pin_entry * pin_entry)) :
  config_writes (retries_trace ctx rounds) = 0%nat.
Proof.
  induction rounds as [|round rounds IH]; [reflexivity|].
  unfold retries_trace. cbn [List.map List.concat].
  rewrite config_writes_app. fold (retries_trace ctx rounds). rewrite IH.
  reflexivity.
Qed.

(** The PIN-setup flow: no PIN is stored, the request does not remove the
    PIN, the user confirms, enters rounds of differing PINs and then a round
    of equal ones, and the store answers the write with [stored]. *)
Lemma runs_change_pin_setup (ctx : Context) (rounds : list (pin_entry * pin_entry))
    (final : pin_entry * pin_entry) (p0 p1 : Z) (stored : bool) :
  Forall (fun round => entered_pin round.1 <> entered_pin round.2) rounds ->
  entered_pin final.1 = entered_pin final.2 ->
  pin_to_int (VStr "") = Normal p0 ->
  pin_to_int (VStr (entered_pin final.1)) = Normal p1 ->
  runs (change_pin ctx (mkChangePin false))
       ((confirm_new_pin_trace ctx ++ [Ev HasPin false] ++
         retries_trace ctx rounds ++ pin_round_trace ctx final) ++
        [Ev (ConfigChangePin p0 p1) stored])
       (if stored then
          Normal (Success (if String.eqb (entered_pin final.1) ""
                           then "PIN removed" else "PIN changed"))
        else Raised (PinInvalid "PIN invalid")).
Proof.
  intros Hrounds Hfinal Hp0 Hp1. unfold change_pin.
  rewrite <- !app_assoc.
  eapply runs_co_bind.
  { unfold require_confirm_change_pin, confirm_new_pin_trace. run. }
  eapply runs_co_bind; [apply runs_co_call|]. cbn [negb remove].
  rewrite app_assoc.
  eapply runs_co_bind with (tr1 := []); [apply runs_co_ret|].
  eapply runs_co_bind; [now apply runs_request_pin_confirm|].
  unfold pin_to_int_co. rewrite Hp0, Hp1.
  change [Ev (ConfigChangePin p0 p1) stored]
    with ([] ++ [] ++ [Ev (ConfigChangePin p0 p1) stored] ++ []).
  eapply runs_co_bind; [apply runs_Ret|].
  eapply runs_co_bind; [apply runs_Ret|].
  eapply runs_co_bind; [apply runs_co_call|].
  destruct stored; cbn.
  - destruct (String.eqb (entered_pin final.1) ""); apply runs_co_ret.
  - apply runs_co_raise.
Qed.

(** C8.  On a device without PIN and for a request that does not remove the
    PIN, [change_pin] asks for confirmation, then prompts for the new PIN
    twice in each round; after a round whose entries differ it shows the
    mismatch screen and prompts again; the credential store is written once,
    after two consecutive entries are equal, and not before; when that write
    succeeds the reply is [Success] with the message "PIN changed".  The PIN
    that the dialog gives is a PIN that was entered: the empty string is what
    [change_pin] itself writes for the absence of a PIN. *)
Theorem pin_setup_writes_after_match (ctx : Context)
    (rounds : list (pin_entry * pin_entry)) (final : pin_entry * pin_entry)
    (p0 p1 : Z) :
  Forall (fun round => entered_pin round.1 <> entered_pin round.2) rounds ->
  entered_pin final.1 = entered_pin final.2 ->
  entered_pin final.1 <> "" ->
  pin_to_int (VStr "") = Normal p0 ->
  pin_to_int (VStr (entered_pin final.1)) = Normal p1 ->
  let prompts := confirm_new_pin_trace ctx ++ [Ev HasPin false] ++
                 retries_trace ctx rounds ++ pin_round_trace ctx final in
  runs (change_pin ctx (mkChangePin false))
       (prompts ++ [Ev (ConfigChangePin p0 p1) true])
       (Normal (Success "PIN changed"))
  /\ config_writes prompts = 0%nat
  /\ config_writes (prompts ++ [Ev (ConfigChangePin p0 p1) true]) = 1%nat.
Proof.
  intros Hrounds Hfinal Hentered Hp0 Hp1 prompts.
  assert (Hnone : config_writes prompts = 0%nat).
  { unfold prompts. rewrite !config_writes_app, config_writes_retries. reflexivity. }
  repeat split.
  - pose proof (runs_change_pin_setup ctx true Hrounds Hfinal Hp0 Hp1) as H.
    apply String.eqb_neq in Hentered. rewrite Hentered in H. exact H.
  - exact Hnone.
  - rewrite config_writes_app, Hnone. reflexivity.
Qed.

End ChangePinFacts.

Lemma pin_setup_writes_after_match_witness :
  let ctx := mkContext 0 0 in
  let entry pin := mkPinEntry 0 (mkMsgClass "ButtonAck" 27) ButtonAck pin in
  let pin_to_int (v : pyval) := Normal (match v with VStr "" => 1 | _ => 11234 end) in
  let prompts :=
    confirm_new_pin_trace ctx ++ [Ev HasPin false] ++
    retries_trace (fun _ => 26) (fun _ => 2) 27 ctx [(entry "1234", entry "1243")] ++
    pin_round_trace (fun _ => 26) (fun _ => 2) 27 ctx (entry "1234", entry "1234") in
  runs (change_pin (fun _ => 26) (fun _ => 2) 27 pin_to_int ctx (mkChangePin false))
       (prompts ++ [Ev (ConfigChangePin 1 11234) true])
       (Normal (Success "PIN changed")).
Proof.
  intros ctx entry pin_to_int prompts.
  apply (@pin_setup_writes_after_match (fun _ => 26) (fun _ => 2) 27 pin_to_int ctx
           [(entry "1234", entry "1243")] (entry "1234", entry "1234") 1 11234).
  - repeat constructor. cbn. discriminate.
  - reflexivity.
  - cbn. discriminate.
  - reflexivity.
  - reflexivity.
Defined.

(* ===================================================================== *)
(** * Further properties: the session context *)
(* ===================================================================== *)

Lemma event_cons_inj X (e : wireE X) (x y : X) (tr tr' : trace) :
  Ev e x :: tr = Ev e y :: tr' -> x = y /\ tr = tr'.
Proof.
  intros H. split.
  - apply (Ev_inj (e := e)). exact (f_equal (hd (Ev e x)) H).
  - exact (f_equal (@tl event) H).
Qed.

Section MoreContextFacts.

Variable wire_type_of : Message -> Z.
Variable count_message : Message -> Z.

Local Abbreviation write := (write wire_type_of count_message).
Local Abbreviation write_trace := (write_trace wire_type_of count_message).
Local Abbreviation call := (call wire_type_of count_message).

Lemma runs_read_no_types_raises (ctx : Context) tr o :
  runs (read ctx []) tr o -> exists e, o = Raised e.
Proof.
  intros H. apply runs_read_inv in H
    as [(e & _ & ->)|[(m & s & _ & _ & ->)|[(m & s & e & _ & _ & ->)
                                           |(m & s & pb & Hin & _)]]]; eauto.
  now apply not_elem_of_nil in Hin.
Qed.

(** X1.  A [read] that expects no type never returns a message: each of its
    runs is the single call that opens the header, and it raises what the
    codec raised, or [UnexpectedMessageError] with the reader it opened,
    whatever the tag. *)
Theorem read_without_types_always_raises (ctx : Context) (tr : trace)
    (o : result Message) :
  runs (read ctx []) tr o ->
  exists answer,
    tr = [Ev (AOpen (getreader ctx)) answer] /\
    o = Raised match answer with
               | Normal h =>
                   UnexpectedMessageError
                     {| reader_iface := iface ctx; reader_type := h.1;
                        reader_size := h.2 |}
               | Raised e => e
               end.
Proof.
  intros H. apply runs_read_inv in H
    as [(e & -> & ->)|[(m & s & _ & -> & ->)|[(m & s & e & Hin & _)
                                             |(m & s & pb & Hin & _)]]].
  - now exists (Raised e).
  - now exists (Normal (m, s)).
  - now apply not_elem_of_nil in Hin.
  - now apply not_elem_of_nil in Hin.
Qed.

(** X2.  [write] sets the header of the frame to the wire type of the
    message and to the size protobuf counts for it, and closes the writer
    only after the message has been dumped: when the dump raises, [write]
    raises the same exception and the writer is never closed. *)
Theorem write_closes_only_after_dump (ctx : Context) (msg : Message) (tr : trace)
    (o : result unit) :
  runs (write ctx msg) tr o ->
  let writer := {| writer_iface := iface ctx; writer_type := wire_type_of msg;
                   writer_size := count_message msg |} in
  (exists e, tr = [Ev (DumpMessage writer msg) (Raised e)] /\ o = Raised e)
  \/ tr = [Ev (DumpMessage writer msg) (Normal tt); Ev (AClose writer) o].
Proof.
  intros H writer. unfold write in H.
  apply runs_co_bind_inv in H as [(tr1 & [] & tr2 & H1 & H2 & ->)|(e & H1 & ->)].
  - apply runs_co_call_r_inv in H1 as ->. apply runs_co_call_r_inv in H2 as ->.
    now right.
  - apply runs_co_call_r_inv in H1 as ->. left. now exists e.
Qed.

(** X3.  When one of the tasks given to [wait] finishes first, [wait] ends
    as that task ended, with its value or its exception, and makes no call
    of its own besides the race: no header is opened. *)
Theorem wait_gives_result_of_first_task (ctx : Context) (tasks : list (Co.t pyval))
    (i : nat) (task : Co.t pyval) (tr : trace) (o : result pyval) :
  nth_error tasks i = Some task ->
  runs task tr o ->
  runs (wait ctx tasks) (Ev (Spawn (S (length tasks))) (S i) :: tr) o.
Proof.
  intros Hnth Htask. unfold wait, spawn.
  change (?ev :: tr) with ([ev] ++ tr).
  eapply runs_co_bind; [apply runs_co_call|]. cbn. now rewrite Hnth.
Qed.

(** X4.  A frame never becomes the value of [wait]: in every run in which
    the read of the interface finishes first, [wait] raises. *)
Theorem wait_never_returns_a_frame (ctx : Context) (tasks : list (Co.t pyval))
    (tr : trace) (o : result pyval) :
  runs (wait ctx tasks) (Ev (Spawn (S (length tasks))) 0%nat :: tr) o ->
  exists e, o = Raised e.
Proof.
  intros H. unfold wait, spawn in H.
  apply runs_co_bind_inv in H as [(tr1 & i & tr2 & H1 & H2 & Heq)|(e & _ & ->)];
    [|now exists e].
  apply runs_co_call_inv in H1 as (i' & -> & Hi). injection Hi as <-.
  cbn in Heq. apply event_cons_inj in Heq as [<- <-]. cbn in H2.
  apply runs_co_bind_inv in H2 as [(tr3 & m & tr4 & H3 & _ & _)|(e & _ & ->)];
    [|now exists e].
  apply runs_read_no_types_raises in H3 as (e & He). discriminate.
Qed.

End MoreContextFacts.

Lemma read_without_types_always_raises_witness :
  let ctx := mkContext 0 0 in
  exists answer,
    header_trace ctx 27 0 = [Ev (AOpen (getreader ctx)) answer] /\
    (Raised (UnexpectedMessageError (mkReader 0 27 0)) : result Message)
    = Raised match answer with
             | Normal h =>
                 UnexpectedMessageError
                   {| reader_iface := iface ctx; reader_type := h.1;
                      reader_size := h.2 |}
             | Raised e => e
             end.
Proof.
  intros ctx.
  apply (@read_without_types_always_raises ctx (header_trace ctx 27 0)
           (Raised (UnexpectedMessageError (mkReader 0 27 0)))).
  apply runs_read_unexpected. apply not_elem_of_nil.
Defined.

Lemma write_closes_only_after_dump_witness :
  let ctx := mkContext 0 0 in
  let writer := mkWriter 0 2 13 in
  let msg := Success "PIN changed" in
  (exists e, [Ev (DumpMessage writer msg) (Raised (PyException "OSError"))]
             = [Ev (DumpMessage writer msg) (Raised e)] /\
             (Raised (PyException "OSError") : result unit) = Raised e)
  \/ [Ev (DumpMessage writer msg) (Raised (PyException "OSError"))]
     = [Ev (DumpMessage writer msg) (Normal tt);
        Ev (AClose writer) (Raised (PyException "OSError"))].
Proof.
  intros ctx writer msg.
  apply (@write_closes_only_after_dump (fun _ => 2) (fun _ => 13) ctx msg
           [Ev (DumpMessage writer msg) (Raised (PyException "OSError"))]
           (Raised (PyException "OSError"))).
  unfold write. run.
Defined.

Lemma wait_gives_result_of_first_task_witness :
  let ctx := mkContext 0 0 in
  let task : Co.t pyval := (pin <- Co.call_r (RequestPin []);; Co.ret (VStr pin))%co in
  runs (wait ctx [task])
       (Ev (Spawn 2) 1%nat :: [Ev (RequestPin []) (Normal "1234")])
       (Normal (VStr "1234")).
Proof.
  intros ctx task.
  apply (@wait_gives_result_of_first_task ctx [task] 0 task
           [Ev (RequestPin []) (Normal "1234")] (Normal (VStr "1234"))).
  - reflexivity.
  - unfold task. run.
Defined.

Lemma wait_never_returns_a_frame_witness :
  let ctx := mkContext 0 0 in
  exists e, (Raised (UnexpectedMessageError (mkReader 0 55 8)) : result pyval)
            = Raised e.
Proof.
  intros ctx.
  apply (@wait_never_returns_a_frame ctx [] (header_trace ctx 55 8)
           (Raised (UnexpectedMessageError (mkReader 0 55 8)))).
  unfold wait, spawn, header_trace.
  change (?ev :: [?ev']) with ([ev] ++ [ev']).
  eapply runs_co_bind; [apply runs_co_call|]. cbn.
  apply runs_co_bind_raised. apply runs_read_unexpected. apply not_elem_of_nil.
Defined.

(* ===================================================================== *)
(** * Further properties: the dispatch adapters *)
(* ===================================================================== *)

Section MoreAdapterFacts.

Variable wire_type_of : Message -> Z.
Variable count_message : Message -> Z.

Local Abbreviation write := (write wire_type_of count_message).
Local Abbreviation write_trace := (write_trace wire_type_of count_message).
Local Abbreviation protobuf_workflow :=
  (protobuf_workflow wire_type_of count_message).

(** X5.  When the inner handler returns a message, [protobuf_workflow]
    writes that message as the reply, once, after the handler has finished,
    and returns nothing; no run goes on after the reply. *)
Theorem protobuf_workflow_writes_response (ctx : Context) (reader : Reader)
    (handler : Handler) (args : list pyval) (pbtype : MsgClass) (req : Message)
    (tr : trace) (res : Message) :
  runs (handler ctx req args) tr (Normal (VMsg res)) ->
  let whole := load_trace reader pbtype req ++ tr ++ write_trace ctx res in
  runs (protobuf_workflow ctx reader handler args) whole (Normal VNone)
  /\ forall more o,
       runs (protobuf_workflow ctx reader handler args) (whole ++ more) o ->
       more = [] /\ o = Normal VNone.
Proof.
  intros Hh whole.
  assert (Hrun : runs (protobuf_workflow ctx reader handler args) whole
                   (Normal VNone)).
  { eapply runs_protobuf_workflow; [exact Hh|]. cbn.
    rewrite <- (app_nil_r (write_trace _ _)).
    eapply runs_co_bind; [apply runs_write|apply runs_co_ret]. }
  split; [exact Hrun|].
  intros more o H. destruct (runs_prefix Hrun H). auto.
Qed.

(** X6.  The request is decoded outside the [try]: when the class of the tag
    cannot be found, or the payload cannot be decoded, every run of
    [protobuf_workflow] ends there with that exception; the handler is not
    called and no [Failure] reply is written. *)
Theorem protobuf_workflow_undecodable_request (ctx : Context) (reader : Reader)
    (handler : Handler) (args : list pyval) (e : exn) (tr : trace)
    (o : result pyval) :
  (runs (protobuf_workflow ctx reader handler args)
        (Ev (GetType (reader_type reader)) (Raised e) :: tr) o ->
   tr = [] /\ o = Raised e)
  /\ (forall pbtype,
        runs (protobuf_workflow ctx reader handler args)
             (Ev (GetType (reader_type reader)) (Normal pbtype)
                :: Ev (LoadMessage reader pbtype) (Raised e) :: tr) o ->
        tr = [] /\ o = Raised e)
  /\ runs (protobuf_workflow ctx reader handler args)
          [Ev (GetType (reader_type reader)) (Raised e)] (Raised e)
  /\ (forall pbtype,
        runs (protobuf_workflow ctx reader handler args)
             [Ev (GetType (reader_type reader)) (Normal pbtype);
              Ev (LoadMessage reader pbtype) (Raised e)] (Raised e)).
Proof.
  assert (H1 : runs (protobuf_workflow ctx reader handler args)
                 [Ev (GetType (reader_type reader)) (Raised e)] (Raised e)).
  { unfold protobuf_workflow. apply runs_co_bind_raised. apply runs_co_call_r. }
  assert (H2 : forall pbtype,
             runs (protobuf_workflow ctx reader handler args)
               [Ev (GetType (reader_type reader)) (Normal pbtype);
                Ev (LoadMessage reader pbtype) (Raised e)] (Raised e)).
  { intros pbtype. unfold protobuf_workflow.
    change [?a; ?b] with ([a] ++ [b]).
    eapply runs_co_bind; [apply runs_co_call_r|].
    apply runs_co_bind_raised. apply runs_co_call_r. }
  split; [|split; [|split]].
  - intros H. destruct (runs_prefix (s := tr) H1 H). auto.
  - intros pbtype H. destruct (runs_prefix (s := tr) (H2 pbtype) H). auto.
  - exact H1.
  - exact H2.
Qed.

(** X7.  When writing the [Failure] reply for a domain failure fails, the
    exception of the write leaves [protobuf_workflow] in place of the
    handler's, and the writer is not closed. *)
Theorem protobuf_workflow_failed_reply (ctx : Context) (reader : Reader)
    (handler : Handler) (args : list pyval) (pbtype : MsgClass) (req : Message)
    (tr : trace) (code : FailureType.t) (message : string) (e : exn) :
  runs (handler ctx req args) tr (Raised (Error code message)) ->
  let reply := Failure code message in
  let writer := {| writer_iface := iface ctx; writer_type := wire_type_of reply;
                   writer_size := count_message reply |} in
  runs (protobuf_workflow ctx reader handler args)
       (load_trace reader pbtype req ++ tr ++
        [Ev (DumpMessage writer reply) (Raised e)])
       (Raised e).
Proof.
  intros Hh reply writer. eapply runs_protobuf_workflow; [exact Hh|]. cbn.
  apply runs_co_bind_raised. unfold write. apply runs_co_bind_raised.
  apply runs_co_call_r.
Qed.

End MoreAdapterFacts.

Lemma protobuf_workflow_writes_response_witness :
  let ctx := mkContext 0 0 in
  let reader := mkReader 0 4 2 in
  let handler : Handler := fun _ _ _ => Co.ret (VMsg (Success "PIN changed")) in
  let cls := mkMsgClass "ChangePin" 4 in
  let req := ChangePinMessage (mkChangePin false) in
  runs (protobuf_workflow (fun _ => 2) (fun _ => 13) ctx reader handler [])
       (load_trace reader cls req ++ [] ++
        write_trace (fun _ => 2) (fun _ => 13) ctx (Success "PIN changed"))
       (Normal VNone).
Proof.
  intros ctx reader handler cls req.
  apply (@protobuf_workflow_writes_response (fun _ => 2) (fun _ => 13) ctx reader
           handler [] cls req [] (Success "PIN changed")).
  apply runs_co_ret.
Defined.

Lemma protobuf_workflow_undecodable_request_witness :
  let ctx := mkContext 0 0 in
  let reader := mkReader 0 4 2 in
  let handler : Handler := fun _ _ _ => Co.ret VNone in
  ([] : trace) = [] /\ (Raised KeyError : result pyval) = Raised KeyError.
Proof.
  intros ctx reader handler.
  apply (@protobuf_workflow_undecodable_request (fun _ => 2) (fun _ => 13) ctx
           reader handler [] KeyError [] (Raised KeyError)).
  unfold protobuf_workflow. apply runs_co_bind_raised. apply runs_co_call_r.
Defined.

Lemma protobuf_workflow_failed_reply_witness :
  let ctx := mkContext 0 0 in
  let reader := mkReader 0 4 2 in
  let handler : Handler := fun _ _ _ => Co.raise (PinInvalid "PIN invalid") in
  let cls := mkMsgClass "ChangePin" 4 in
  let req := ChangePinMessage (mkChangePin false) in
  runs (protobuf_workflow (fun _ => 3) (fun _ => 13) ctx reader handler [])
       (load_trace reader cls req ++ [] ++
        [Ev (DumpMessage (mkWriter 0 3 13)
               (Failure FailureType.PinInvalid "PIN invalid"))
            (Raised (PyException "OSError"))])
       (Raised (PyException "OSError")).
Proof.
  intros ctx reader handler cls req.
  apply (@protobuf_workflow_failed_reply (fun _ => 3) (fun _ => 13) ctx reader
           handler [] cls req [] FailureType.PinInvalid "PIN invalid"
           (PyException "OSError")).
  apply runs_co_raise.
Defined.

(** X8.  The keychain is acquired outside the [try]: when [get_keychain]
    raises, every run of [keychain_workflow] ends there with that exception;
    the handler is not called and nothing is released. *)
Theorem keychain_workflow_acquire_fails (ctx : Context) (req : Message)
    (namespace : list pyval) (handler : Handler) (args : list pyval) (e : exn)
    (tr : trace) (o : result pyval) :
  runs (keychain_workflow ctx req namespace handler args)
       (Ev (GetKeychain ctx namespace) (Raised e) :: tr) o ->
  tr = [] /\ o = Raised e.
Proof.
  intros H.
  assert (H1 : runs (keychain_workflow ctx req namespace handler args)
                 [Ev (GetKeychain ctx namespace) (Raised e)] (Raised e)).
  { unfold keychain_workflow. apply runs_co_bind_raised. apply runs_co_call_r. }
  destruct (runs_prefix (s := tr) H1 H). auto.
Qed.

Lemma keychain_workflow_acquire_fails_witness :
  ([] : trace) = [] /\
  (Raised (PyException "ValueError") : result pyval) = Raised (PyException "ValueError").
Proof.
  apply (@keychain_workflow_acquire_fails (mkContext 0 0) (OtherMessage 30 "")
           [VStr "secp256k1"] (fun _ _ _ => Co.ret VNone) []
           (PyException "ValueError") [] (Raised (PyException "ValueError"))).
  unfold keychain_workflow. apply runs_co_bind_raised. apply runs_co_call_r.
Defined.

(* ===================================================================== *)
(** * Further properties: workflows registered by [add] *)
(* ===================================================================== *)

Section AddFacts.

Variable wire_type_of : Message -> Z.
Variable count_message : Message -> Z.
Variable import_module : string -> string -> result Handler.

Local Abbreviation write_trace := (write_trace wire_type_of count_message).
Local Abbreviation find_handler := (find_handler wire_type_of count_message).
Local Abbreviation session_iteration := (session_iteration wire_type_of count_message).
Local Abbreviation protobuf_workflow := (protobuf_workflow wire_type_of count_message).
Local Abbreviation import_workflow := (import_workflow import_module).
Local Abbreviation add := (add wire_type_of count_message import_module).

(** The entry that [add] makes, and the lookup that finds it. *)
Lemma add_absent (workflow_handlers : registry) (mtype : mtype_arg)
    (pkgname modname : string) (namespace : option (list pyval)) :
  workflow_handlers !! tag_of mtype = None ->
  exists workflow : Workflow,
    add mtype pkgname modname namespace workflow_handlers
    = (Normal tt, <[tag_of mtype := (workflow, [])]> workflow_handlers)
    /\ (forall reader, reader_type reader = tag_of mtype ->
          find_handler (<[tag_of mtype := (workflow, [])]> workflow_handlers) reader
          = (workflow, []))
    /\ forall ctx reader args,
         workflow ctx reader args
         = protobuf_workflow ctx reader
             (match namespace with
              | Some namespace =>
                  fun ctx req args =>
                    keychain_workflow ctx req namespace
                      (fun ctx req args => import_workflow ctx req pkgname modname args)
                      args
              | None =>
                  fun ctx req args => import_workflow ctx req pkgname modname args
              end) args.
Proof.
  intros Hnone. unfold add.
  destruct namespace as [namespace|]; eexists; (split; [|split]);
    try (apply register_absent; [reflexivity|exact Hnone]).
  - intros reader Hty. unfold find_handler. now rewrite Hty, lookup_insert_eq.
  - reflexivity.
  - intros reader Hty. unfold find_handler. now rewrite Hty, lookup_insert_eq.
  - reflexivity.
Qed.

(** X9.  A workflow added with a namespace serves a frame of its tag in this
    order: the request is decoded, a keychain is acquired for the namespace,
    the handler of the imported module runs with the keychain as its only
    bound argument, the keychain is released, and only then is the handler's
    message written as the reply; the turn of the session loop ends
    normally. *)
Theorem added_workflow_releases_keychain_before_reply
    (workflow_handlers : registry) (ctx : Context) (start : option Reader)
    (reader : Reader) (tr_in : trace) (mtype : mtype_arg)
    (pkgname modname : string) (namespace : list pyval) (handler : Handler)
    (pbtype : MsgClass) (req : Message) (keychain : Keychain) (m : Z)
    (tr : trace) (res : Message) :
  workflow_handlers !! tag_of mtype = None ->
  reader_type reader = tag_of mtype ->
  turn_entry ctx start reader tr_in ->
  import_module (pkgname ++ "." ++ modname)%string modname = Normal handler ->
  runs (handler ctx req [VKeychain keychain]) tr (Normal (VMsg res)) ->
  exists added,
    add mtype pkgname modname (Some namespace) workflow_handlers = (Normal tt, added)
    /\ runs (session_iteration added ctx start)
            (tr_in ++
             workflow_trace m
               (load_trace reader pbtype req ++
                (Ev (GetKeychain ctx namespace) (Normal keychain)
                   :: tr ++ [Ev (KeychainDel keychain) tt]) ++
                write_trace ctx res))
            (Normal None).
Proof.
  intros Hnone Hty Hentry Himport Hh.
  destruct (add_absent pkgname modname (Some namespace) Hnone)
    as (workflow & Hadd & Hfind & Hw).
  eexists. split; [exact Hadd|].
  change (Normal None) with (turn_result (Normal VNone)).
  eapply runs_session_turn; [exact Hentry|apply Hfind, Hty|].
  rewrite Hw. eapply runs_protobuf_workflow.
  - unfold keychain_workflow.
    change (?ev :: tr ++ ?l) with ([ev] ++ tr ++ l).
    eapply runs_co_bind; [apply runs_co_call_r|].
    apply runs_try_finally; [|apply runs_co_call].
    unfold import_workflow. rewrite Himport. exact Hh.
  - cbn. rewrite <- (app_nil_r (write_trace _ _)).
    eapply runs_co_bind; [apply runs_write|apply runs_co_ret].
Qed.

(** X10.  When the module of an added workflow cannot be imported, the
    import fails inside the adapters: the keychain that was acquired is
    released, a [Failure] reply with the [FirmwareError] code is written, and
    the turn of the session loop ends normally. *)
Theorem added_workflow_import_failure
    (workflow_handlers : registry) (ctx : Context) (start : option Reader)
    (reader : Reader) (tr_in : trace) (mtype : mtype_arg)
    (pkgname modname : string) (namespace : list pyval) (name : string)
    (pbtype : MsgClass) (req : Message) (keychain : Keychain) (m : Z) :
  workflow_handlers !! tag_of mtype = None ->
  reader_type reader = tag_of mtype ->
  turn_entry ctx start reader tr_in ->
  import_module (pkgname ++ "." ++ modname)%string modname
  = Raised (PyException name) ->
  exists added,
    add mtype pkgname modname (Some namespace) workflow_handlers = (Normal tt, added)
    /\ runs (session_iteration added ctx start)
            (tr_in ++
             workflow_trace m
               (load_trace reader pbtype req ++
                [Ev (GetKeychain ctx namespace) (Normal keychain);
                 Ev (KeychainDel keychain) tt] ++
                write_trace ctx (Failure FailureType.FirmwareError "Firmware error")))
            (Normal None).
Proof.
  intros Hnone Hty Hentry Himport.
  destruct (add_absent pkgname modname (Some namespace) Hnone)
    as (workflow & Hadd & Hfind & Hw).
  eexists. split; [exact Hadd|].
  change (Normal None) with (turn_result (Raised (PyException name))).
  eapply runs_session_turn; [exact Hentry|apply Hfind, Hty|].
  rewrite Hw. eapply runs_protobuf_workflow.
  - unfold keychain_workflow.
    change [?a; ?b] with ([a] ++ [] ++ [b]).
    eapply runs_co_bind; [apply runs_co_call_r|].
    apply runs_try_finally; [|apply runs_co_call].
    unfold import_workflow. rewrite Himport. apply runs_co_raise.
  - cbn. rewrite <- (app_nil_r (write_trace _ _)).
    eapply runs_co_bind; [apply runs_write|apply runs_co_raise].
Qed.

End AddFacts.

Lemma added_workflow_releases_keychain_before_reply_witness :
  let ctx := mkContext 0 0 in
  let reader := mkReader 0 30 0 in
  let handler : Handler := fun _ _ _ => Co.ret (VMsg (Success "signed")) in
  let import_module (modpath modname : string) : result Handler := Normal handler in
  exists added,
    add (fun _ => 2) (fun _ => 8) import_module (MInt 30) "apps.wallet" "sign_tx"
        (Some [VStr "secp256k1"]) ∅ = (Normal tt, added)
    /\ runs (session_iteration (fun _ => 2) (fun _ => 8) added ctx (Some reader))
            ([] ++
             workflow_trace 0
               (load_trace reader (mkMsgClass "SignTx" 30) (OtherMessage 30 "") ++
                (Ev (GetKeychain ctx [VStr "secp256k1"]) (Normal 5)
                   :: [] ++ [Ev (KeychainDel 5) tt]) ++
                write_trace (fun _ => 2) (fun _ => 8) ctx (Success "signed")))
            (Normal None).
Proof.
  intros ctx reader handler import_module.
  apply (@added_workflow_releases_keychain_before_reply (fun _ => 2) (fun _ => 8)
           import_module ∅ ctx (Some reader) reader [] (MInt 30) "apps.wallet"
           "sign_tx" [VStr "secp256k1"] handler (mkMsgClass "SignTx" 30)
           (OtherMessage 30 "") 5 0 [] (Success "signed")).
  - apply lookup_empty.
  - reflexivity.
  - left. split; reflexivity.
  - reflexivity.
  - apply runs_co_ret.
Defined.

Lemma added_workflow_import_failure_witness :
  let ctx := mkContext 0 0 in
  let reader := mkReader 0 30 0 in
  let import_module (modpath modname : string) : result Handler :=
    Raised (PyException "ImportError") in
  exists added,
    add (fun _ => 3) (fun _ => 8) import_module (MInt 30) "apps.wallet" "sign_tx"
        (Some [VStr "secp256k1"]) ∅ = (Normal tt, added)
    /\ runs (session_iteration (fun _ => 3) (fun _ => 8) added ctx (Some reader))
            ([] ++
             workflow_trace 0
               (load_trace reader (mkMsgClass "SignTx" 30) (OtherMessage 30 "") ++
                [Ev (GetKeychain ctx [VStr "secp256k1"]) (Normal 5);
                 Ev (KeychainDel 5) tt] ++
                write_trace (fun _ => 3) (fun _ => 8) ctx
                  (Failure FailureType.FirmwareError "Firmware error")))
            (Normal None).
Proof.
  intros ctx reader import_module.
  apply (@added_workflow_import_failure (fun _ => 3) (fun _ => 8)
           import_module ∅ ctx (Some reader) reader [] (MInt 30) "apps.wallet"
           "sign_tx" [VStr "secp256k1"] "ImportError" (mkMsgClass "SignTx" 30)
           (OtherMessage 30 "") 5 0).
  - apply lookup_empty.
  - reflexivity.
  - left. split; reflexivity.
  - reflexivity.
Defined.

(* ===================================================================== *)
(** * Further properties: the registry and the session loop *)
(* ===================================================================== *)

Section MoreSessionFacts.

Variable wire_type_of : Message -> Z.
Variable count_message : Message -> Z.

Local Abbreviation write_trace := (write_trace wire_type_of count_message).
Local Abbreviation find_handler := (find_handler wire_type_of count_message).
Local Abbreviation session_iteration := (session_iteration wire_type_of count_message).
Local Abbreviation session_loop := (session_loop wire_type_of count_message).
Local Abbreviation unexpected_msg := (unexpected_msg wire_type_of count_message).

(** X11.  After a successful [register], a frame with the registered tag is
    dispatched to the registered handler with its bound arguments, and a
    frame with any other tag is dispatched as it was before. *)
Theorem register_then_dispatch (workflow_handlers registered : registry)
    (mtype : mtype_arg) (handler : Workflow) (args : list pyval) (reader : Reader) :
  register mtype handler args workflow_handlers = (Normal tt, registered) ->
  find_handler registered reader
  = if decide (reader_type reader = tag_of mtype) then (handler, args)
    else find_handler workflow_handlers reader.
Proof.
  unfold register. fold (tag_of mtype).
  destruct (workflow_handlers !! tag_of mtype) eqn:Hl; [discriminate|].
  intros H. injection H as <-. unfold find_handler.
  destruct (decide (reader_type reader = tag_of mtype)) as [->|Hne].
  - now rewrite lookup_insert_eq.
  - now rewrite lookup_insert_ne by congruence.
Qed.

(** X12.  [register] never removes or replaces an entry: whatever it is
    called with, and whether it succeeds or raises, an entry of the table is
    still there afterwards. *)
Theorem register_keeps_entries (workflow_handlers : registry) (mtype : mtype_arg)
    (handler : Workflow) (args : list pyval) (tag : Z)
    (entry : Workflow * list pyval) :
  workflow_handlers !! tag = Some entry ->
  (register mtype handler args workflow_handlers).2 !! tag = Some entry.
Proof.
  intros Hentry. unfold register. fold (tag_of mtype).
  destruct (workflow_handlers !! tag_of mtype) eqn:Hl; cbn; [exact Hentry|].
  rewrite lookup_insert_ne; [exact Hentry|]. congruence.
Qed.

(** X13.  A failure of the codec while the loop waits for a header does not
    end the session: when [aopen] raises a fault, the turn ends normally
    without a reader and without having started a workflow, and the loop
    waits for a header again. *)
Theorem session_turn_survives_codec_failure (workflow_handlers : registry)
    (ctx : Context) (e : exn) :
  is_fault e = true ->
  runs (session_iteration workflow_handlers ctx None)
       [Ev (AOpen (getreader ctx)) (Raised e)] (Normal None)
  /\ steps (session_loop workflow_handlers ctx None)
           [Ev (AOpen (getreader ctx)) (Raised e)]
           (session_loop workflow_handlers ctx None).
Proof.
  intros Hfault.
  assert (Hturn : runs (session_iteration workflow_handlers ctx None)
                    [Ev (AOpen (getreader ctx)) (Raised e)] (Normal None)).
  { unfold session_iteration.
    rewrite <- (app_nil_r [_]).
    eapply runs_try_except_raised.
    - apply runs_co_bind_raised. apply (runs_aopen (getreader ctx) (Raised e)).
    - destruct e; try discriminate; apply runs_co_ret. }
  split; [exact Hturn|]. now apply steps_session_loop.
Qed.

(** X14.  After a workflow that returns, with whatever value, the turn hands
    no reader over, and the loop is the loop that waits for a new header. *)
Theorem session_turn_after_completion (workflow_handlers : registry)
    (ctx : Context) (start : option Reader) (reader : Reader) (tr_in : trace)
    (handler : Workflow) (args : list pyval) (m : Z) (tr : trace) (v : pyval) :
  turn_entry ctx start reader tr_in ->
  find_handler workflow_handlers reader = (handler, args) ->
  runs (handler ctx reader args) tr (Normal v) ->
  runs (session_iteration workflow_handlers ctx start)
       (tr_in ++ workflow_trace m tr) (Normal None)
  /\ steps (session_loop workflow_handlers ctx start)
           (tr_in ++ workflow_trace m tr)
           (session_loop workflow_handlers ctx None).
Proof.
  intros Hentry Hfind Hw.
  assert (Hturn := runs_session_turn m Hentry Hfind Hw). cbn in Hturn.
  split; [exact Hturn|]. now apply steps_session_loop.
Qed.

(** X16.  An exception outside [Exception] that a workflow raises does end
    the loop: it leaves [session_handler] after the workflow has been closed
    and the import scope restored. *)
Theorem session_loop_ends_on_base_exception (workflow_handlers : registry)
    (ctx : Context) (start : option Reader) (reader : Reader) (tr_in : trace)
    (handler : Workflow) (args : list pyval) (m : Z) (tr : trace) (name : string) :
  turn_entry ctx start reader tr_in ->
  find_handler workflow_handlers reader = (handler, args) ->
  runs (handler ctx reader args) tr (Raised (PyBaseException name)) ->
  runs (session_loop workflow_handlers ctx start)
       (tr_in ++ workflow_trace m tr) (Raised (PyBaseException name)).
Proof.
  intros Hentry Hfind Hw.
  assert (Hturn := runs_session_turn m Hentry Hfind Hw). cbn in Hturn.
  unfold session_loop. apply runs_while_raised.
  now apply runs_co_bind_raised.
Qed.

Lemma messages_written_app (tr1 tr2 : trace) :
  messages_written (tr1 ++ tr2) = messages_written tr1 ++ messages_written tr2.
Proof.
  induction tr1 as [|[X e x] tr1 IH]; [reflexivity|].
  cbn [app messages_written]. destruct e; cbn; now rewrite IH.
Qed.

Lemma messages_written_drain (chunks : list Z) (reader : Reader) :
  messages_written (drain_trace reader chunks) = [].
Proof.
  revert reader. induction chunks as [|n chunks IH]; intros reader;
    [reflexivity|]. cbn. apply IH.
Qed.

(** X17.  For a frame without payload [unexpected_msg] reads nothing: when
    no byte remains on the reader, its only calls are those that write the
    [Failure] reply. *)
Theorem unexpected_msg_empty_payload (ctx : Context) (reader : Reader) :
  reader_size reader <= 0 ->
  runs (unexpected_msg ctx reader)
       (write_trace ctx (Failure FailureType.UnexpectedMessage "Unexpected message"))
       (Normal VNone).
Proof.
  intros Hsize. unfold unexpected_msg.
  change (write_trace ctx ?msg) with ([] ++ write_trace ctx msg).
  eapply runs_co_bind with (a := tt).
  - apply runs_while_exit.
    replace (0 <? reader_size reader) with false by (symmetry; apply Z.ltb_ge; lia).
    apply runs_co_ret.
  - rewrite <- (app_nil_r (write_trace _ _)).
    eapply runs_co_bind; [apply runs_write|apply runs_co_ret].
Qed.

(** X18.  When a read fails while [unexpected_msg] drains the payload, the
    exception of the codec leaves [unexpected_msg]: no [Failure] reply is
    written for the frame, and no run goes on after the failed read. *)
Theorem unexpected_msg_read_failure (ctx : Context) (reader : Reader)
    (chunks : list Z) (e : exn) :
  draining (reader_size reader) chunks ->
  0 < reader_size (reader_after reader chunks) ->
  let rest := reader_after reader chunks in
  let whole := drain_trace reader chunks ++
               [Ev (AReadInto rest (reader_size rest)) (Raised e)] in
  runs (unexpected_msg ctx reader) whole (Raised e)
  /\ messages_written whole = []
  /\ forall more o, runs (unexpected_msg ctx reader) (whole ++ more) o -> more = [].
Proof.
  intros Hchunks Hrest rest whole.
  assert (Hrun : runs (unexpected_msg ctx reader) whole (Raised e)).
  { unfold unexpected_msg, whole, rest. apply runs_co_bind_raised.
    clear whole rest. revert reader Hchunks Hrest.
    induction chunks as [|n chunks IH]; intros reader Hchunks Hrest; cbn in *.
    - apply runs_while_raised. apply Z.ltb_lt in Hrest. rewrite Hrest.
      unfold areadinto. run.
    - destruct Hchunks as (Hpos & Hchunks).
      change (?ev :: ?tr) with ([ev] ++ tr).
      eapply runs_while_continue; [|apply IH; assumption].
      apply Z.ltb_lt in Hpos. rewrite Hpos. unfold areadinto. run. }
  repeat split.
  - exact Hrun.
  - unfold whole. now rewrite messages_written_app, messages_written_drain.
  - intros more o H. now destruct (runs_prefix Hrun H).
Qed.

End MoreSessionFacts.

Lemma register_then_dispatch_witness :
  let h : Workflow := fun _ _ _ => Co.ret VNone in
  let registered : registry := <[4 := (h, [])]> ∅ in
  find_handler (fun _ => 3) (fun _ => 22) registered (mkReader 0 4 0)
  = if decide (4 = tag_of (MInt 4)) then (h, [])
    else find_handler (fun _ => 3) (fun _ => 22) ∅ (mkReader 0 4 0).
Proof.
  intros h registered.
  apply (@register_then_dispatch (fun _ => 3) (fun _ => 22) ∅ registered (MInt 4)
           h [] (mkReader 0 4 0)).
  unfold register. now rewrite lookup_empty.
Defined.

Lemma register_keeps_entries_witness :
  let h : Workflow := fun _ _ _ => Co.ret VNone in
  let table : registry := <[4 := (h, [])]> ∅ in
  (register (MInt 4) h [VInt 1] table).2 !! 4 = Some (h, [])
  /\ (register (MInt 7) h [VInt 1] table).2 !! 4 = Some (h, []).
Proof.
  intros h table. split.
  - apply (@register_keeps_entries table (MInt 4) h [VInt 1] 4 (h, [])).
    apply lookup_insert_eq.
  - apply (@register_keeps_entries table (MInt 7) h [VInt 1] 4 (h, [])).
    apply lookup_insert_eq.
Defined.

Lemma session_turn_survives_codec_failure_witness :
  let ctx := mkContext 0 0 in
  steps (session_loop (fun _ => 3) (fun _ => 22) ∅ ctx None)
        [Ev (AOpen (getreader ctx)) (Raised (PyException "OSError"))]
        (session_loop (fun _ => 3) (fun _ => 22) ∅ ctx None).
Proof.
  intros ctx.
  apply (@session_turn_survives_codec_failure (fun _ => 3) (fun _ => 22) ∅ ctx
           (PyException "OSError")).
  reflexivity.
Defined.

Lemma session_turn_after_completion_witness :
  let ctx := mkContext 0 0 in
  let reader := mkReader 0 4 0 in
  let handler : Workflow := fun _ _ _ => Co.ret VNone in
  let workflow_handlers : registry := <[4 := (handler, [])]> ∅ in
  steps (session_loop (fun _ => 3) (fun _ => 22) workflow_handlers ctx (Some reader))
        ([] ++ workflow_trace 0 [])
        (session_loop (fun _ => 3) (fun _ => 22) workflow_handlers ctx None).
Proof.
  intros ctx reader handler workflow_handlers.
  apply (@session_turn_after_completion (fun _ => 3) (fun _ => 22)
           workflow_handlers ctx (Some reader) reader [] handler [] 0 [] VNone).
  - left. split; reflexivity.
  - unfold find_handler, workflow_handlers. cbn [reader_type reader].
    now rewrite lookup_insert_eq.
  - apply runs_co_ret.
Defined.

Lemma session_loop_ends_on_base_exception_witness :
  let ctx := mkContext 0 0 in
  let reader := mkReader 0 4 0 in
  let handler : Workflow := fun _ _ _ => Co.raise (PyBaseException "GeneratorExit") in
  let workflow_handlers : registry := <[4 := (handler, [])]> ∅ in
  runs (session_loop (fun _ => 3) (fun _ => 22) workflow_handlers ctx (Some reader))
       ([] ++ workflow_trace 0 []) (Raised (PyBaseException "GeneratorExit")).
Proof.
  intros ctx reader handler workflow_handlers.
  apply (@session_loop_ends_on_base_exception (fun _ => 3) (fun _ => 22)
           workflow_handlers ctx (Some reader) reader [] handler [] 0 []
           "GeneratorExit").
  - left. split; reflexivity.
  - unfold find_handler, workflow_handlers. cbn [reader_type reader].
    now rewrite lookup_insert_eq.
  - apply runs_co_raise.
Defined.

Lemma unexpected_msg_empty_payload_witness :
  let ctx := mkContext 0 0 in
  runs (unexpected_msg (fun _ => 3) (fun _ => 22) ctx (mkReader 0 65535 0))
       (write_trace (fun _ => 3) (fun _ => 22) ctx
          (Failure FailureType.UnexpectedMessage "Unexpected message"))
       (Normal VNone).
Proof.
  intros ctx.
  apply (@unexpected_msg_empty_payload (fun _ => 3) (fun _ => 22) ctx
           (mkReader 0 65535 0)).
  cbn. lia.
Defined.

Lemma unexpected_msg_read_failure_witness :
  let ctx := mkContext 0 0 in
  let reader := mkReader 0 65535 3 in
  runs (unexpected_msg (fun _ => 3) (fun _ => 22) ctx reader)
       (drain_trace reader [2] ++
        [Ev (AReadInto (mkReader 0 65535 1) 1) (Raised (PyException "EOFError"))])
       (Raised (PyException "EOFError")).
Proof.
  intros ctx reader.
  apply (@unexpected_msg_read_failure (fun _ => 3) (fun _ => 22) ctx reader [2]
           (PyException "EOFError")).
  - cbn. lia.
  - cbn. lia.
Defined.

(* ===================================================================== *)
(** * Further properties: the PIN change workflow *)
(* ===================================================================== *)

Section MoreChangePinFacts.

Variable wire_type_of : Message -> Z.
Variable count_message : Message -> Z.
Variable MessageType_ButtonAck : Z.
Variable pin_to_int : pyval -> result Z.

Local Abbreviation write_trace := (write_trace wire_type_of count_message).
Local Abbreviation call := (call wire_type_of count_message).
Local Abbreviation button_ack_trace :=
  (button_ack_trace wire_type_of count_message MessageType_ButtonAck).
Local Abbreviation pin_prompt_trace :=
  (pin_prompt_trace wire_type_of count_message MessageType_ButtonAck).
Local Abbreviation pin_round_trace :=
  (pin_round_trace wire_type_of count_message MessageType_ButtonAck).
Local Abbreviation retries_trace :=
  (retries_trace wire_type_of count_message MessageType_ButtonAck).
Local Abbreviation request_pin_ack :=
  (request_pin_ack wire_type_of count_message MessageType_ButtonAck).
Local Abbreviation request_pin_confirm :=
  (request_pin_confirm wire_type_of count_message MessageType_ButtonAck).
Local Abbreviation change_pin :=
  (change_pin wire_type_of count_message MessageType_ButtonAck pin_to_int).

Lemma runs_button_ack (ctx : Context) (e : pin_entry) :
  runs (call ctx (ButtonRequest ButtonRequestType.Other) [MessageType_ButtonAck])
       (button_ack_trace ctx e) (Normal (ack_message e)).
Proof.
  unfold call, button_ack_trace.
  eapply runs_co_bind; [apply runs_write|].
  apply runs_read_expected. apply list_elem_of_singleton. reflexivity.
Qed.

Lemma pin_prompt_trace_split (ctx : Context) (args : list string) (e : pin_entry) :
  pin_prompt_trace ctx args e
  = button_ack_trace ctx e ++
    [Ev (Spawn 2) 1%nat; Ev (RequestPin args) (Normal (entered_pin e))].
Proof.
  unfold pin_prompt_trace, button_ack_trace. now rewrite <- !app_assoc.
Qed.

Lemma config_writes_button_ack (ctx : Context) (e : pin_entry) :
  config_writes (button_ack_trace ctx e) = 0%nat.
Proof. reflexivity. Qed.

Lemma pin_prompts_button_ack (ctx : Context) (e : pin_entry) :
  pin_prompts (button_ack_trace ctx e) = 0%nat.
Proof. reflexivity. Qed.

Lemma request_pin_ack_cancelled_run (ctx : Context) (args : list string)
    (e : pin_entry) :
  runs (request_pin_ack ctx args)
       (button_ack_trace ctx e ++
        [Ev (Spawn 2) 1%nat; Ev (RequestPin args) (Raised PinCancelled)])
       (Raised (Error FailureType.ActionCancelled "Cancelled")).
Proof.
  unfold request_pin_ack.
  rewrite <- (app_nil_r (_ ++ _)).
  eapply runs_try_except_raised.
  - eapply runs_co_bind; [apply runs_button_ack|].
    unfold wait, spawn. run.
  - apply runs_co_raise.
Qed.

(** X19.  When the user cancels the PIN dialog, [request_pin_ack] turns the
    [PinCancelled] of the dialog into the domain failure
    [ActionCancelled("Cancelled")]; any other exception of the dialog leaves
    [request_pin_ack] as it is. *)
Theorem request_pin_ack_cancelled (ctx : Context) (args : list string)
    (e : pin_entry) (exc : exn) :
  let dialog answer :=
    button_ack_trace ctx e ++ [Ev (Spawn 2) 1%nat; Ev (RequestPin args) answer] in
  runs (request_pin_ack ctx args) (dialog (Raised PinCancelled))
       (Raised (Error FailureType.ActionCancelled "Cancelled"))
  /\ (exc <> PinCancelled ->
      runs (request_pin_ack ctx args) (dialog (Raised exc)) (Raised exc)).
Proof.
  intros dialog. split; [apply request_pin_ack_cancelled_run|].
  intros Hne. unfold request_pin_ack, dialog.
  rewrite <- (app_nil_r (_ ++ _)).
  eapply runs_try_except_raised.
  - eapply runs_co_bind; [apply runs_button_ack|].
    unfold wait, spawn. run.
  - destruct exc as [r|code message|name|name]; try apply runs_co_raise.
    destruct (String.eqb name "PinCancelled") eqn:Hname; [|apply runs_co_raise].
    apply String.eqb_eq in Hname. subst name. now contradict Hne.
Qed.

(** X20.  A frame that arrives while the PIN dialog is shown ends
    [request_pin_ack] with [UnexpectedMessageError] carrying the reader of
    that frame: the clause for [PinCancelled] leaves it as it is. *)
Theorem request_pin_ack_interrupted (ctx : Context) (args : list string)
    (e : pin_entry) (mtype size : Z) :
  runs (request_pin_ack ctx args)
       (button_ack_trace ctx e ++
        Ev (Spawn 2) 0%nat :: header_trace ctx mtype size)
       (Raised (UnexpectedMessageError
                  {| reader_iface := iface ctx; reader_type := mtype;
                     reader_size := size |})).
Proof.
  unfold request_pin_ack.
  rewrite <- (app_nil_r (_ ++ _)).
  eapply runs_try_except_raised.
  - eapply runs_co_bind; [apply runs_button_ack|].
    unfold wait, spawn.
    change (?ev :: header_trace ctx mtype size)
      with ([ev] ++ header_trace ctx mtype size).
    eapply runs_co_bind; [apply runs_co_call|]. cbn.
    apply runs_co_bind_raised. apply runs_read_unexpected. apply not_elem_of_nil.
  - apply runs_co_raise.
Qed.

(** X21.  When the host answers the button request with a frame that is not
    a [ButtonAck], [request_pin_ack] raises [UnexpectedMessageError] with the
    reader of that frame, and the PIN dialog is never shown. *)
Theorem request_pin_ack_unacknowledged (ctx : Context) (args : list string)
    (mtype size : Z) :
  mtype <> MessageType_ButtonAck ->
  let whole := write_trace ctx (ButtonRequest ButtonRequestType.Other) ++
               header_trace ctx mtype size in
  runs (request_pin_ack ctx args) whole
       (Raised (UnexpectedMessageError
                  {| reader_iface := iface ctx; reader_type := mtype;
                     reader_size := size |}))
  /\ forall more o, runs (request_pin_ack ctx args) (whole ++ more) o -> more = [].
Proof.
  intros Hne whole.
  assert (Hrun : runs (request_pin_ack ctx args) whole
                   (Raised (UnexpectedMessageError
                              {| reader_iface := iface ctx; reader_type := mtype;
                                 reader_size := size |}))).
  { unfold request_pin_ack, whole.
    rewrite <- (app_nil_r (_ ++ _)).
    eapply runs_try_except_raised.
    - apply runs_co_bind_raised. unfold call.
      eapply runs_co_bind; [apply runs_write|].
      apply runs_read_unexpected. rewrite list_elem_of_singleton. exact Hne.
    - apply runs_co_raise. }
  split; [exact Hrun|].
  intros more o H. now destruct (runs_prefix Hrun H).
Qed.

Lemma runs_require_confirm (ctx : Context) (msg : ChangePin) (has_pin : bool)
    (answer : result unit) :
  runs (require_confirm_change_pin ctx msg)
       (confirm_trace ctx (remove msg) has_pin answer)
       match confirm_question (remove msg) has_pin with
       | Some _ => answer
       | None => Normal tt
       end.
Proof.
  destruct msg as [[|]], has_pin;
    unfold require_confirm_change_pin, confirm_trace; cbn; run.
Qed.

(** The part of [change_pin] that obtains the current PIN. *)
Lemma runs_current_pin (ctx : Context) (e : pin_entry) (p : Z) (ok : bool) :
  pin_to_int (VStr (entered_pin e)) = Normal p ->
  runs (curpin <- request_pin_ack ctx [];;
        pin <- pin_to_int_co pin_to_int curpin;;
        ok <- Co.call (CheckPin pin);;
        if negb ok then Co.raise (PinInvalid "PIN invalid")
        else Co.ret curpin)%co
       (pin_prompt_trace ctx [] e ++ [Ev (CheckPin p) ok])
       (if ok then Normal (VStr (entered_pin e))
        else Raised (PinInvalid "PIN invalid")).
Proof.
  intros Hp.
  eapply runs_co_bind; [apply runs_request_pin_ack|].
  unfold pin_to_int_co. rewrite Hp.
  change [Ev (CheckPin p) ok] with ([] ++ [Ev (CheckPin p) ok] ++ []).
  eapply runs_co_bind; [apply runs_Ret|].
  eapply runs_co_bind; [apply runs_co_call|].
  destruct ok; cbn; [apply runs_co_ret|apply runs_co_raise].
Qed.

(** [change_pin] from the confirmation on, given how the current and the
    new PIN are obtained. *)
Lemma runs_change_pin_flow (ctx : Context) (msg : ChangePin) (has_pin : bool)
    (tr_cur tr_new : trace) (curpin newpin : pyval) (p p' : Z) (stored : bool) :
  runs (if has_pin then
          (curpin <- request_pin_ack ctx [];;
           pin <- pin_to_int_co pin_to_int curpin;;
           ok <- Co.call (CheckPin pin);;
           if negb ok then Co.raise (PinInvalid "PIN invalid")
           else Co.ret curpin)%co
        else Co.ret (VStr "")) tr_cur (Normal curpin) ->
  runs (if negb (remove msg) then request_pin_confirm ctx []
        else Co.ret (VStr "")) tr_new (Normal newpin) ->
  pin_to_int curpin = Normal p ->
  pin_to_int newpin = Normal p' ->
  runs (change_pin ctx msg)
       (confirm_trace ctx (remove msg) has_pin (Normal tt) ++ [Ev HasPin has_pin] ++
        tr_cur ++ tr_new ++ [Ev (ConfigChangePin p p') stored])
       (if stored then
          Normal (Success (if truthy newpin then "PIN changed" else "PIN removed"))
        else Raised (PinInvalid "PIN invalid")).
Proof.
  intros Hcur Hnew Hp Hp'. unfold change_pin.
  eapply runs_co_bind.
  { replace (Normal tt) with
      (match confirm_question (remove msg) has_pin with
       | Some _ => Normal tt
       | None => Normal tt
       end) at 2 by (destruct (confirm_question _ _); reflexivity).
    apply runs_require_confirm. }
  eapply runs_co_bind; [apply runs_co_call|].
  eapply runs_co_bind; [exact Hcur|].
  eapply runs_co_bind; [exact Hnew|].
  unfold pin_to_int_co. rewrite Hp, Hp'.
  change [Ev (ConfigChangePin p p') stored]
    with ([] ++ [] ++ [Ev (ConfigChangePin p p') stored] ++ []).
  eapply runs_co_bind; [apply runs_Ret|].
  eapply runs_co_bind; [apply runs_Ret|].
  eapply runs_co_bind; [apply runs_co_call|].
  destruct stored; cbn.
  - destruct (truthy newpin); apply runs_co_ret.
  - apply runs_co_raise.
Qed.

Lemma config_writes_pin_prompt (ctx : Context) (args : list string) (e : pin_entry) :
  config_writes (pin_prompt_trace ctx args e) = 0%nat.
Proof. reflexivity. Qed.

Lemma config_writes_confirm (ctx : Context) (remove has_pin : bool)
    (answer : result unit) :
  config_writes (confirm_trace ctx remove has_pin answer) = 0%nat.
Proof. destruct remove, has_pin; reflexivity. Qed.

Lemma pin_prompts_app (tr1 tr2 : trace) :
  pin_prompts (tr1 ++ tr2) = (pin_prompts tr1 + pin_prompts tr2)%nat.
Proof.
  induction tr1 as [|[X e x] tr1 IH]; cbn; [reflexivity|]. rewrite IH. lia.
Qed.

Lemma pin_prompts_confirm (ctx : Context) (remove has_pin : bool)
    (answer : result unit) :
  pin_prompts (confirm_trace ctx remove has_pin answer) = 0%nat.
Proof. destruct remove, has_pin; reflexivity. Qed.

(** X22.  When the user declines the confirmation, [change_pin] ends there
    with the exception of the dialog: no PIN is asked for, and the stored PIN
    is neither checked nor written. *)
Theorem change_pin_declined (ctx : Context) (msg : ChangePin) (has_pin : bool)
    (question : string) (e : exn) :
  confirm_question (remove msg) has_pin = Some question ->
  let whole := confirm_trace ctx (remove msg) has_pin (Raised e) in
  runs (change_pin ctx msg) whole (Raised e)
  /\ forall more o, runs (change_pin ctx msg) (whole ++ more) o -> more = [].
Proof.
  intros Hq whole.
  assert (Hrun : runs (change_pin ctx msg) whole (Raised e)).
  { unfold change_pin, whole. apply runs_co_bind_raised.
    pose proof (runs_require_confirm ctx msg has_pin (Raised e)) as H.
    now rewrite Hq in H. }
  split; [exact Hrun|].
  intros more o H. now destruct (runs_prefix Hrun H).
Qed.

(** X23.  On a device with a PIN, when the PIN entered as the current one
    is not the stored one, [change_pin] raises [PinInvalid("PIN invalid")]:
    no new PIN is asked for and the store is not written. *)
Theorem change_pin_wrong_current_pin (ctx : Context) (msg : ChangePin)
    (e : pin_entry) (p : Z) :
  pin_to_int (VStr (entered_pin e)) = Normal p ->
  let whole := confirm_trace ctx (remove msg) true (Normal tt) ++ [Ev HasPin true] ++
               pin_prompt_trace ctx [] e ++ [Ev (CheckPin p) false] in
  runs (change_pin ctx msg) whole (Raised (Error FailureType.PinInvalid "PIN invalid"))
  /\ config_writes whole = 0%nat
  /\ pin_prompts whole = 1%nat
  /\ forall more o, runs (change_pin ctx msg) (whole ++ more) o -> more = [].
Proof.
  intros Hp whole.
  assert (Hrun : runs (change_pin ctx msg) whole
                   (Raised (Error FailureType.PinInvalid "PIN invalid"))).
  { unfold change_pin, whole.
    eapply runs_co_bind.
    { pose proof (runs_require_confirm ctx msg true (Normal tt)) as H.
      destruct (confirm_question (remove msg) true); exact H. }
    eapply runs_co_bind; [apply runs_co_call|].
    apply runs_co_bind_raised.
    exact (runs_current_pin ctx false Hp). }
  split; [exact Hrun|]. split; [|split].
  - unfold whole. rewrite !config_writes_app, config_writes_confirm. reflexivity.
  - unfold whole. rewrite !pin_prompts_app, pin_prompts_confirm. reflexivity.
  - intros more o H. now destruct (runs_prefix Hrun H).
Qed.

(** X24.  Removing the PIN of a device that has one: after the confirmation
    the current PIN is asked for once and checked, no new PIN is asked for,
    the store is written with the empty PIN as the new one, and the reply is
    "PIN removed". *)
Theorem change_pin_removes_pin (ctx : Context) (e : pin_entry) (p p0 : Z) :
  pin_to_int (VStr (entered_pin e)) = Normal p ->
  pin_to_int (VStr "") = Normal p0 ->
  let whole := confirm_trace ctx true true (Normal tt) ++ [Ev HasPin true] ++
               (pin_prompt_trace ctx [] e ++ [Ev (CheckPin p) true]) ++ [] ++
               [Ev (ConfigChangePin p p0) true] in
  runs (change_pin ctx (mkChangePin true)) whole (Normal (Success "PIN removed"))
  /\ pin_prompts whole = 1%nat.
Proof.
  intros Hp Hp0 whole. split.
  - apply (runs_change_pin_flow (ctx := ctx) (msg := mkChangePin true)
             (has_pin := true) (curpin := VStr (entered_pin e))
             (newpin := VStr "") true).
    + exact (runs_current_pin ctx true Hp).
    + apply runs_co_ret.
    + exact Hp.
    + exact Hp0.
  - reflexivity.
Qed.

(** X25.  A request to remove the PIN of a device that has none asks the
    user nothing: no confirmation and no PIN dialog; the store is written
    with the empty PIN as the old and as the new one. *)
Theorem change_pin_remove_without_pin (ctx : Context) (p0 : Z) (stored : bool) :
  pin_to_int (VStr "") = Normal p0 ->
  runs (change_pin ctx (mkChangePin true))
       [Ev HasPin false; Ev HasPin false; Ev (ConfigChangePin p0 p0) stored]
       (if stored then Normal (Success "PIN removed")
        else Raised (Error FailureType.PinInvalid "PIN invalid")).
Proof.
  intros Hp0.
  apply (runs_change_pin_flow (ctx := ctx) (msg := mkChangePin true)
           (has_pin := false) (tr_cur := []) (tr_new := []) (curpin := VStr "")
           (newpin := VStr "") stored).
  - apply runs_co_ret.
  - apply runs_co_ret.
  - exact Hp0.
  - exact Hp0.
Qed.

(** X26.  Changing the PIN of a device that has one: the current PIN is
    asked for and checked before any new PIN is asked for; the new PIN is
    asked for in rounds until two entries agree; the store is then written
    once, with the current and the new PIN. *)
Theorem change_pin_changes_existing_pin (ctx : Context) (current : pin_entry)
    (rounds : list (pin_entry * pin_entry)) (final : pin_entry * pin_entry)
    (p p1 : Z) :
  Forall (fun round => entered_pin round.1 <> entered_pin round.2) rounds ->
  entered_pin final.1 = entered_pin final.2 ->
  pin_to_int (VStr (entered_pin current)) = Normal p ->
  pin_to_int (VStr (entered_pin final.1)) = Normal p1 ->
  let prompts := confirm_trace ctx false true (Normal tt) ++ [Ev HasPin true] ++
                 (pin_prompt_trace ctx [] current ++ [Ev (CheckPin p) true]) ++
                 (retries_trace ctx rounds ++ pin_round_trace ctx final) in
  runs (change_pin ctx (mkChangePin false))
       (prompts ++ [Ev (ConfigChangePin p p1) true])
       (Normal (Success (if String.eqb (entered_pin final.1) ""
                         then "PIN removed" else "PIN changed")))
  /\ config_writes prompts = 0%nat.
Proof.
  intros Hrounds Hfinal Hp Hp1 prompts. split.
  - pose proof (runs_change_pin_flow (ctx := ctx) (msg := mkChangePin false)
                  (has_pin := true) (curpin := VStr (entered_pin current))
                  (newpin := VStr (entered_pin final.1)) true
                  (runs_current_pin ctx true Hp)
                  (runs_request_pin_confirm wire_type_of count_message
                     MessageType_ButtonAck ctx Hrounds Hfinal) Hp Hp1) as H.
    unfold prompts. rewrite <- !app_assoc. rewrite <- !app_assoc in H.
    cbn [truthy] in H.
    destruct (String.eqb (entered_pin final.1) ""); exact H.
  - unfold prompts.
    rewrite !config_writes_app, config_writes_confirm, config_writes_pin_prompt,
      config_writes_retries. reflexivity.
Qed.

(** X27.  In the PIN-setup flow, when the store refuses the write,
    [change_pin] raises [PinInvalid("PIN invalid")] and returns no
    [Success]. *)
Theorem change_pin_store_refuses (ctx : Context)
    (rounds : list (pin_entry * pin_entry)) (final : pin_entry * pin_entry)
    (p0 p1 : Z) :
  Forall (fun round => entered_pin round.1 <> entered_pin round.2) rounds ->
  entered_pin final.1 = entered_pin final.2 ->
  pin_to_int (VStr "") = Normal p0 ->
  pin_to_int (VStr (entered_pin final.1)) = Normal p1 ->
  runs (change_pin ctx (mkChangePin false))
       ((confirm_new_pin_trace ctx ++ [Ev HasPin false] ++
         retries_trace ctx rounds ++ pin_round_trace ctx final) ++
        [Ev (ConfigChangePin p0 p1) false])
       (Raised (Error FailureType.PinInvalid "PIN invalid")).
Proof.
  intros Hrounds Hfinal Hp0 Hp1.
  exact (runs_change_pin_setup wire_type_of count_message MessageType_ButtonAck
           ctx false Hrounds Hfinal Hp0 Hp1).
Qed.

Lemma runs_request_pin_confirm_cancelled (ctx : Context)
    (rounds : list (pin_entry * pin_entry)) (e : pin_entry) :
  Forall (fun round => entered_pin round.1 <> entered_pin round.2) rounds ->
  runs (request_pin_confirm ctx [])
       (retries_trace ctx rounds ++
        button_ack_trace ctx e ++
        [Ev (Spawn 2) 1%nat; Ev (RequestPin ["Enter new PIN"]) (Raised PinCancelled)])
       (Raised (Error FailureType.ActionCancelled "Cancelled")).
Proof.
  intros Hrounds. unfold request_pin_confirm.
  induction Hrounds as [|round rounds Hne _ IH].
  - cbn [retries_trace List.map List.concat app]. apply runs_while_raised.
    apply runs_co_bind_raised.
    apply (request_pin_ack_cancelled_run ctx ["Enter new PIN"] e).
  - unfold retries_trace. cbn [List.map List.concat]. rewrite <- app_assoc.
    eapply runs_while_continue; [|exact IH].
    unfold pin_round_trace. rewrite <- app_assoc.
    eapply runs_co_bind; [apply runs_request_pin_ack|].
    eapply runs_co_bind; [apply runs_request_pin_ack|].
    unfold py_eq. rewrite bool_decide_eq_false_2 by congruence.
    rewrite <- (app_nil_r mismatch_trace).
    eapply runs_co_bind; [apply runs_pin_mismatch|apply runs_co_ret].
Qed.

(** X28.  In the PIN-setup flow, when the user cancels the dialog for the
    new PIN, after any number of rounds whose entries differed, [change_pin]
    raises [ActionCancelled("Cancelled")] and the store has not been
    written. *)
Theorem change_pin_cancelled_during_entry (ctx : Context)
    (rounds : list (pin_entry * pin_entry)) (e : pin_entry) :
  Forall (fun round => entered_pin round.1 <> entered_pin round.2) rounds ->
  let whole := confirm_new_pin_trace ctx ++ [Ev HasPin false] ++
               retries_trace ctx rounds ++
               button_ack_trace ctx e ++
               [Ev (Spawn 2) 1%nat;
                Ev (RequestPin ["Enter new PIN"]) (Raised PinCancelled)] in
  runs (change_pin ctx (mkChangePin false)) whole
       (Raised (Error FailureType.ActionCancelled "Cancelled"))
  /\ config_writes whole = 0%nat.
Proof.
  intros Hrounds whole. split.
  - unfold change_pin, whole.
    eapply runs_co_bind.
    { unfold require_confirm_change_pin, confirm_new_pin_trace. run. }
    eapply runs_co_bind; [apply runs_co_call|]. cbn [negb remove].
    eapply runs_co_bind with (tr1 := []); [apply runs_co_ret|]. cbn [app].
    apply runs_co_bind_raised.
    now apply runs_request_pin_confirm_cancelled.
  - unfold whole.
    rewrite !config_writes_app, config_writes_retries, config_writes_button_ack.
    reflexivity.
Qed.

End MoreChangePinFacts.

Lemma request_pin_ack_unacknowledged_witness :
  let ctx := mkContext 0 0 in
  runs (request_pin_ack (fun _ => 26) (fun _ => 2) 27 ctx ["Enter new PIN"])
       (write_trace (fun _ => 26) (fun _ => 2) ctx
          (ButtonRequest ButtonRequestType.Other) ++ header_trace ctx 55 8)
       (Raised (UnexpectedMessageError (mkReader 0 55 8))).
Proof.
  intros ctx.
  apply (@request_pin_ack_unacknowledged (fun _ => 26) (fun _ => 2) 27 ctx
           ["Enter new PIN"] 55 8).
  lia.
Defined.

Lemma change_pin_declined_witness :
  let ctx := mkContext 0 0 in
  let pin_to_int (v : pyval) : result Z := Normal 1 in
  runs (change_pin (fun _ => 26) (fun _ => 2) 27 pin_to_int ctx (mkChangePin false))
       (confirm_trace ctx false false (Raised (ActionCancelled "Cancelled")))
       (Raised (ActionCancelled "Cancelled")).
Proof.
  intros ctx pin_to_int.
  apply (@change_pin_declined (fun _ => 26) (fun _ => 2) 27 pin_to_int ctx
           (mkChangePin false) false "set new PIN?" (ActionCancelled "Cancelled")).
  reflexivity.
Defined.

Lemma change_pin_wrong_current_pin_witness :
  let ctx := mkContext 0 0 in
  let entry := mkPinEntry 0 (mkMsgClass "ButtonAck" 27) ButtonAck "0000" in
  let pin_to_int (v : pyval) : result Z := Normal 10000 in
  runs (change_pin (fun _ => 26) (fun _ => 2) 27 pin_to_int ctx (mkChangePin false))
       (confirm_trace ctx false true (Normal tt) ++ [Ev HasPin true] ++
        pin_prompt_trace (fun _ => 26) (fun _ => 2) 27 ctx [] entry ++
        [Ev (CheckPin 10000) false])
       (Raised (PinInvalid "PIN invalid")).
Proof.
  intros ctx entry pin_to_int.
  apply (@change_pin_wrong_current_pin (fun _ => 26) (fun _ => 2) 27 pin_to_int ctx
           (mkChangePin false) entry 10000).
  reflexivity.
Defined.

Lemma change_pin_removes_pin_witness :
  let ctx := mkContext 0 0 in
  let entry := mkPinEntry 0 (mkMsgClass "ButtonAck" 27) ButtonAck "1234" in
  let pin_to_int (v : pyval) := Normal (match v with VStr "" => 1 | _ => 11234 end) in
  runs (change_pin (fun _ => 26) (fun _ => 2) 27 pin_to_int ctx (mkChangePin true))
       (confirm_trace ctx true true (Normal tt) ++ [Ev HasPin true] ++
        (pin_prompt_trace (fun _ => 26) (fun _ => 2) 27 ctx [] entry ++
         [Ev (CheckPin 11234) true]) ++ [] ++ [Ev (ConfigChangePin 11234 1) true])
       (Normal (Success "PIN removed")).
Proof.
  intros ctx entry pin_to_int.
  apply (@change_pin_removes_pin (fun _ => 26) (fun _ => 2) 27 pin_to_int ctx
           entry 11234 1).
  - reflexivity.
  - reflexivity.
Defined.

Lemma change_pin_remove_without_pin_witness :
  let ctx := mkContext 0 0 in
  let pin_to_int (v : pyval) : result Z := Normal 1 in
  runs (change_pin (fun _ => 26) (fun _ => 2) 27 pin_to_int ctx (mkChangePin true))
       [Ev HasPin false; Ev HasPin false; Ev (ConfigChangePin 1 1) true]
       (Normal (Success "PIN removed")).
Proof.
  intros ctx pin_to_int.
  apply (@change_pin_remove_without_pin (fun _ => 26) (fun _ => 2) 27 pin_to_int
           ctx 1 true).
  reflexivity.
Defined.

Lemma change_pin_changes_existing_pin_witness :
  let ctx := mkContext 0 0 in
  let entry pin := mkPinEntry 0 (mkMsgClass "ButtonAck" 27) ButtonAck pin in
  let pin_to_int (v : pyval) :=
    Normal (match v with VStr "0000" => 10000 | _ => 11234 end) in
  runs (change_pin (fun _ => 26) (fun _ => 2) 27 pin_to_int ctx (mkChangePin false))
       ((confirm_trace ctx false true (Normal tt) ++ [Ev HasPin true] ++
         (pin_prompt_trace (fun _ => 26) (fun _ => 2) 27 ctx [] (entry "0000") ++
          [Ev (CheckPin 10000) true]) ++
         (retries_trace (fun _ => 26) (fun _ => 2) 27 ctx [] ++
          pin_round_trace (fun _ => 26) (fun _ => 2) 27 ctx
            (entry "1234", entry "1234"))) ++
        [Ev (ConfigChangePin 10000 11234) true])
       (Normal (Success "PIN changed")).
Proof.
  intros ctx entry pin_to_int.
  apply (@change_pin_changes_existing_pin (fun _ => 26) (fun _ => 2) 27 pin_to_int
           ctx (entry "0000") [] (entry "1234", entry "1234") 10000 11234).
  - constructor.
  - reflexivity.
  - reflexivity.
  - reflexivity.
Defined.

Lemma change_pin_store_refuses_witness :
  let ctx := mkContext 0 0 in
  let entry pin := mkPinEntry 0 (mkMsgClass "ButtonAck" 27) ButtonAck pin in
  let pin_to_int (v : pyval) := Normal (match v with VStr "" => 1 | _ => 11234 end) in
  runs (change_pin (fun _ => 26) (fun _ => 2) 27 pin_to_int ctx (mkChangePin false))
       ((confirm_new_pin_trace ctx ++ [Ev HasPin false] ++
         retries_trace (fun _ => 26) (fun _ => 2) 27 ctx [] ++
         pin_round_trace (fun _ => 26) (fun _ => 2) 27 ctx
           (entry "1234", entry "1234")) ++
        [Ev (ConfigChangePin 1 11234) false])
       (Raised (PinInvalid "PIN invalid")).
Proof.
  intros ctx entry pin_to_int.
  apply (@change_pin_store_refuses (fun _ => 26) (fun _ => 2) 27 pin_to_int ctx
           [] (entry "1234", entry "1234") 1 11234).
  - constructor.
  - reflexivity.
  - reflexivity.
  - reflexivity.
Defined.

Lemma request_pin_ack_cancelled_witness :
  let ctx := mkContext 0 0 in
  let entry := mkPinEntry 0 (mkMsgClass "ButtonAck" 27) ButtonAck "" in
  runs (request_pin_ack (fun _ => 26) (fun _ => 2) 27 ctx [])
       (button_ack_trace (fun _ => 26) (fun _ => 2) 27 ctx entry ++
        [Ev (Spawn 2) 1%nat; Ev (RequestPin []) (Raised (PyException "ValueError"))])
       (Raised (PyException "ValueError")).
Proof.
  intros ctx entry.
  apply (@request_pin_ack_cancelled (fun _ => 26) (fun _ => 2) 27 ctx [] entry
           (PyException "ValueError")).
  discriminate.
Defined.

Lemma change_pin_cancelled_during_entry_witness :
  let ctx := mkContext 0 0 in
  let entry pin := mkPinEntry 0 (mkMsgClass "ButtonAck" 27) ButtonAck pin in
  let pin_to_int (v : pyval) : result Z := Normal 1 in
  runs (change_pin (fun _ => 26) (fun _ => 2) 27 pin_to_int ctx (mkChangePin false))
       (confirm_new_pin_trace ctx ++ [Ev HasPin false] ++
        retries_trace (fun _ => 26) (fun _ => 2) 27 ctx
          [(entry "1234", entry "1243")] ++
        button_ack_trace (fun _ => 26) (fun _ => 2) 27 ctx (entry "") ++
        [Ev (Spawn 2) 1%nat;
         Ev (RequestPin ["Enter new PIN"]) (Raised PinCancelled)])
       (Raised (ActionCancelled "Cancelled")).
Proof.
  intros ctx entry pin_to_int.
  apply (@change_pin_cancelled_during_entry (fun _ => 26) (fun _ => 2) 27
           pin_to_int ctx [(entry "1234", entry "1243")] (entry "")).
  repeat constructor. cbn. discriminate.
Defined.
